(* ===== verification/_CoqProject ===== *)
-Q . S2P
Prelude.v
JsArray.v
Model.v
Reconcile.v
Session.v
UrlSearchParams.v
Details.v
Actions.v
ListPages.v
LivePage.v
ListNavigation.v
ArchivedPage.v
