(* ===== verification/Prelude.v ===== *)
(** * A verification development of the Argo UI workflow pages

    The sources are four pages of the browser front end of the Argo
    workflow engine (TypeScript/React, under [src/ui/src/app]):
    - [workflows/components/workflows-list/workflows-list.tsx]
      ([WorkflowsList]): the live list of workflows.  The [DataLoader]'s
      [load] callback (lines 81-108) fetches a snapshot with
      [services.workflows.list(phases, '')], emits it, then merges the
      [services.workflows.watch(phases)] change stream into the same
      array, which it mutates in place ([findIndex], [splice], index
      assignment, [unshift]) and re-emits whenever the change was not a
      no-op.  The phase filter lives in the URL: [selectionChanged]
      (lines 55-58) pushes [?phase=a&phase=b] and the [phases] getter
      (lines 39-41) reads it back with [URLSearchParams.getAll]; the
      [DataLoader]'s [input] is that list, so a new selection starts a
      new subscription.  The loaded array renders as one linked row per
      workflow keyed by its name (lines 111-181).
    - [workflow-history/components/workflow-history-list/
      workflow-history-list.tsx] ([WorkflowHistoryList], lines 16-51):
      the history list, keyed by uid.
    - [workflow-history/components/workflow-history-details/
      workflow-history-details.tsx] ([WorkflowHistoryDetails]) and
      [archived-workflows/components/archived-workflow-details/
      archived-workflow-details.tsx] ([ArchivedWorkflowDetails]): one
      workflow, with its UI state in the URL query ([tab], [nodeId],
      [container], [sidePanel], read with JavaScript defaults and written
      with [setParams]), three tab buttons, the DAG or timeline with the
      step-information panel, a sliding panel for the YAML or the logs,
      and the resubmit and delete actions, which ask [confirm] and chain
      [.catch(...).then(...)] on the service's promise.

    ** Files, in dependency order, and what they model

    - [Prelude.v] (this file): the [js_scope] notation [a === b] for
      JavaScript's strict equality on strings, the [argo] hint database,
      the tactics ([case_streq], [invc], [concrete]) and the generic
      lemmas on keyed lists ([NoDup] of keys under insert and delete) and
      on their map view [to_map].
    - [JsArray.v]: the array built-ins the list page calls
      ([Array.prototype.findIndex] returning [-1], [splice] with the
      ECMAScript clamping of its arguments, index assignment, [unshift]).
    - [Model.v]: the types of the [models] package (not among the
      sources; modelled from the fields the pages read), with decidable
      equality for each.
    - [Reconcile.v]: the watch callback as [onWorkflowChange] (lines
      87-104), the filter [emitted] (105-106), the stream over a sequence
      of events [watchPipeline], the keyed view [view] and the
      specification's contract [spec_apply].
    - [Session.v]: the [load] pipeline and the [DataLoader] that drives
      it, as a step function [step] on a [Session] record holding the
      phase of the subscription, its number, and an explicit heap of
      arrays (so that the aliasing of the emitted array is visible); the
      reconciler is reached through the [Reconciler] class.  Inputs are
      the [DataLoader]'s subscriptions and unsubscriptions and the
      backend's answers; outputs are requests and emissions.
    - [UrlSearchParams.v]: the WHATWG [URLSearchParams] the pages use
      (parse, [get], [getAll], [set], [delete], [toString] with the
      form-urlencoded serializer), a browser built-in modelled from its
      standard.
    - [Details.v]: the detail pages: the route, [getParam] and
      [setParams] of the history page, the getters and setters, [node],
      and [render()] as a typed view [detailsView] whose event handlers
      are data ([Handler]), with [dispatch] to follow a click.
    - [Actions.v]: the resubmit and delete actions of both detail pages
      as the sequence of their effects, given the user's answer and how
      the service's promise settles.
    - [ListPages.v]: the phase filter ([phases], [phaseQuery], and
      [location_search] for the router's reading of a pushed URL), the list
      page's [render()] as [workflowsListView] and [listBody], and the
      history list [workflowHistoryListView], and the submit panel's
      [onSave].
    - [LivePage.v]: the composition of the session with the page: the
      [DataLoader]'s state as a [Loader] (the session and the reference
      to the last value it received), [loader_step] driving
      [Session.step], and [livePage], the list view rendered from the
      array read through that reference.
    - [ListNavigation.v]: argo-ui's [ctx.navigation.goto] on the list
      page's own path as [navigate] (an edit of the current query), and
      the search box's and submit panel's handlers followed to the next
      rendering.
    - [ArchivedPage.v]: the archived page's getters and setters (lines
      23-57, [node] at 165-167) written against a [BasePage] class, the
      interface of [shared/components/base-page] with its read-back law,
      and the instance made of the history page's [getParam],
      [setParams] and [push].

    ** What the theorems show

    - The reconciler: equivalence of the index-based callback with a
      reference definition written with [List.find], [filter] and [map];
      every branch of the callback (replace in place,
      prepend, delete, the [resourceVersion] no-op), idempotence of a
      repeated event, preservation of name uniqueness, and refinement of
      the specification's keyed-map contract on every event but the two
      where the code departs from it: a [DELETED] event carrying the
      stored [resourceVersion] is suppressed, and a [DELETED] event for
      an absent name is still emitted.
    - The session: name uniqueness of every array of every reachable
      state reached through snapshots with unique names (rule induction
      over [reachable]); the snapshot is emitted first, then the watch
      opens; at most one emission per input; at most one error; nothing
      after unsubscription; the lifecycle terminates -- without a new
      subscription the phase changes at most three times, down the rank
      [Fetching > Streaming > Failed > Closed], so nothing retries or
      reconnects; a resubscription uses a fresh array and
      ignores the old subscription's answers; every emission of a
      subscription is the same array, which the callback mutates in
      place; no client-side phase filtering.
    - The URL: [parse ("?" ++ toString ps) = ps] for any parameters, so
      [getParam] after [setParams] reads back what was written and keeps
      the rest, and a setter leaves exactly one copy of its parameter;
      the phases chosen in the filter are read back in order from the
      [location.search] of the URL [selectionChanged] pushes (read as
      the [history] package's [parsePath] reads it, [location_search]),
      for phases without [&], [+], [%] or [#] under a base URL without
      [?] or [#].
    - The live page: after any run in which every list answer has
      unique names, the rendered rows have distinct keys (the session's
      invariant carried through the [DataLoader]'s reference to the
      view); the assumption is stated because the page lists across all
      namespaces, where two workflows may share a name; after a subscription's
      snapshot and any watch events the page shows the snapshot with the
      callback folded over the events; after an unsubscription the page
      is frozen on the array it showed.
    - The pages: a click on a tab button shows that tab and marks the
      button (the summary button with the misspelt class [actve]); "show
      container logs" opens the logs of that node and container; the
      sliding panel holds at most one viewer and opens empty for an
      unknown [sidePanel] value; no
      request is sent without confirmation; a failed resubmit ends in an
      unhandled [TypeError] without navigating; a failed delete navigates
      as a successful one does; list rows are keyed by name, history
      rows by uid; typing in the search box shows the text back without
      filtering the rows or touching the phase filter; the submit panel
      opens and closes through the [new] parameter, and saving sends at
      most one create request, always to the namespace [argo], and
      navigates exactly when it succeeds; on the archived page
      each setter changes only its own parameter, proved from the
      [BasePage] law alone.

    ** Bounds and fuel

    No definition needs fuel: every function is structural on a list or
    a string.  Array indices are JavaScript numbers, modelled as [Z]
    where the code compares them with [-1], and as [nat] once in range;
    arrays of workflows are far below [2^32], so no index wraps.  The
    byte-level lemmas of [UrlSearchParams.v] are checked on all 256
    bytes.

    ** Not modelled

    The [services] HTTP layer and the backend (their answers are inputs
    of the session), argo-ui's [DataLoader] and [navigation.goto] beyond
    their documented contracts (modelled in [LivePage.v] and
    [ListNavigation.v]), argo-ui's other components ([Page],
    [SlidingPanel], [Autocomplete], the workflow panels: their props are
    recorded in the views, their rendering is not), the YAML editor and
    [JSON.parse] (its outcome is an input of [onSave]),
    [Utils.tryJsonParse] and [uiUrl] (section variables; the filter
    round trip takes [uiUrl] as a base URL put before the path), the
    implementation of [BasePage] (not among the sources: the archived
    page is proved against its interface, whose instance is the history
    page's [getParam] and [setParams]), the UTF-8 encoding step of the
    URL serializer (strings are taken as byte strings), DOM behaviour
    with no page state (selecting the search text on focus), and browser
    dialogs (the answer to [confirm] is an input).  The source lines the
    development does not translate are declarations without behaviour:
    the imports, the [contextTypes] of each component, and the
    [appContext] getters that cast [this.context]. *)

From Stdlib Require Export String ZArith.
From stdpp Require Export base list gmap strings.

Declare Scope js_scope.
Delimit Scope js_scope with js.

(** JavaScript's strict equality on strings, as the code writes [a === b]. *)
Notation "a === b" := (String.eqb a b) (at level 70, no associativity) : js_scope.

Open Scope js_scope.

Create HintDb argo discriminated.
Create Rewrite HintDb argo_rw.

(** ** Strings *)

Lemma js_streq_true (a b : string) : (a === b) = true <-> a = b.
Proof. apply String.eqb_eq. Qed.

Lemma js_streq_refl (a : string) : (a === a) = true.
Proof. apply String.eqb_refl. Qed.

Lemma string_app_assoc (a b c : string) : (a ++ b ++ c)%string = ((a ++ b) ++ c)%string.
Proof. induction a as [|x a IH]; [done | exact (f_equal (String x) IH)]. Qed.

Lemma js_streq_false (a b : string) : (a === b) = false <-> a <> b.
Proof. apply String.eqb_neq. Qed.

#[export] Hint Rewrite js_streq_refl : argo_rw.

(** Case analysis on a string comparison of the goal, with the equation. *)
Ltac case_streq a b :=
  let E := fresh "E" in
  destruct (a === b) eqn:E;
  [apply js_streq_true in E | apply js_streq_false in E].

Ltac invc H := inversion H; subst; clear H.

(** Close a decidable side condition on concrete data by evaluation. *)
Ltac concrete :=
  first [ reflexivity
        | apply (bool_decide_unpack _); vm_compute; reflexivity
        | vm_compute; repeat constructor ].

(** ** Lists without duplicate keys *)

Section keyed.
Context {A K : Type} (key : A -> K).

Lemma NoDup_fmap_insert (l : list A) (i : nat) (x y : A) :
  l !! i = Some y -> key x = key y ->
  NoDup (key <$> l) -> NoDup (key <$> <[i:=x]> l).
Proof.
  intros Hi Hk Hnd. rewrite list_fmap_insert, Hk, list_insert_id; [done |].
  by rewrite list_lookup_fmap, Hi.
Qed.

Lemma NoDup_fmap_delete (l : list A) (i : nat) :
  NoDup (key <$> l) -> NoDup (key <$> delete i l).
Proof.
  intros Hnd. rewrite list_fmap_delete.
  eapply sublist_NoDup; [done | apply sublist_delete].
Qed.

Lemma NoDup_fmap_cons_fresh (l : list A) (x : A) :
  key x ∉ key <$> l -> NoDup (key <$> l) -> NoDup (key <$> x :: l).
Proof. intros. simpl. by constructor. Qed.
End keyed.

(** ** Index operations on a list with unique keys, as operations on
    the whole list *)

Lemma filter_all_id {A} (P : A -> Prop) `{!forall x, Decision (P x)} (l : list A) :
  (forall z, z ∈ l -> P z) -> filter P l = l.
Proof.
  induction l as [|y l IH]; intros Hall; [done |].
  rewrite filter_cons_True by set_solver. f_equal. apply IH. set_solver.
Qed.

Lemma fmap_id_on {A} (f : A -> A) (l : list A) :
  (forall z, z ∈ l -> f z = z) -> f <$> l = l.
Proof.
  induction l as [|y l IH]; intros Hall; [done |].
  simpl. rewrite Hall by set_solver. f_equal. apply IH. set_solver.
Qed.

Section keyed_ops.
Context {A K : Type} `{EqDecision K} (key : A -> K).

Lemma key_lookup_elem (l : list A) (i : nat) (x : A) :
  l !! i = Some x -> key x ∈ key <$> l.
Proof. intros Hi. apply list_elem_of_fmap. exists x. split; [done |]. by eapply list_elem_of_lookup_2. Qed.

Lemma find_key_unique (l : list A) (i : nat) (x : A) :
  NoDup (key <$> l) -> l !! i = Some x ->
  List.find (fun y => bool_decide (key y = key x)) l = Some x.
Proof.
  revert i. induction l as [|y l IH]; intros [|i] Hnd Hi; simplify_eq/=; [by rewrite bool_decide_eq_true_2 |].
  apply NoDup_cons in Hnd as [Hy Hnd]. rewrite bool_decide_eq_false_2; [by eapply IH |].
  intros Hk. apply Hy. rewrite Hk. by eapply key_lookup_elem.
Qed.

Lemma find_key_absent (l : list A) (k : K) :
  k ∉ key <$> l -> List.find (fun y => bool_decide (key y = k)) l = None.
Proof.
  induction l as [|y l IH]; intros Hk; [done |]. simpl.
  rewrite bool_decide_eq_false_2; [apply IH; set_solver |]. intros <-. set_solver.
Qed.

Lemma delete_as_filter (l : list A) (i : nat) (x : A) :
  NoDup (key <$> l) -> l !! i = Some x -> delete i l = filter (fun y => key y ≠ key x) l.
Proof.
  revert i. induction l as [|y l IH]; intros [|i] Hnd Hi; simplify_eq/=; apply NoDup_cons in Hnd as [Hy Hnd].
  - rewrite filter_cons_False by (intros Hne; by apply Hne). symmetry. apply filter_all_id.
    intros z Hz Hzk. apply Hy. rewrite <- Hzk. apply list_elem_of_fmap. eauto.
  - rewrite filter_cons_True; [f_equal; by eapply IH |].
    intros Hk. apply Hy. rewrite Hk. by eapply key_lookup_elem.
Qed.

Lemma insert_as_fmap (l : list A) (i : nat) (x y : A) :
  NoDup (key <$> l) -> l !! i = Some x ->
  <[i:=y]> l = (fun z => if decide (key z = key x) then y else z) <$> l.
Proof.
  revert i. induction l as [|z l IH]; intros [|i] Hnd Hi; simplify_eq/=; apply NoDup_cons in Hnd as [Hz Hnd].
  - rewrite decide_True by done. f_equal. symmetry. apply fmap_id_on.
    intros w Hw. rewrite decide_False; [done |]. intros Hwk. apply Hz. rewrite <- Hwk.
    apply list_elem_of_fmap. eauto.
  - rewrite decide_False; [f_equal; by eapply IH |].
    intros Hk. apply Hz. rewrite Hk. by eapply key_lookup_elem.
Qed.
End keyed_ops.

(** ** The keyed-map view of a list with unique keys *)

Section to_map.
Context {A K : Type} `{Countable K} (key : A -> K).

(** The finite map from each key to the element holding it. *)
Definition to_map (l : list A) : gmap K A :=
  list_to_map ((fun x => (key x, x)) <$> l).

Lemma to_map_cons (x : A) (l : list A) : to_map (x :: l) = <[key x:=x]> (to_map l).
Proof. done. Qed.

Lemma to_map_lookup_None (l : list A) (k : K) :
  k ∉ key <$> l -> to_map l !! k = None.
Proof.
  induction l as [|y l IH]; simpl; intros Hk; [done |].
  rewrite to_map_cons, lookup_insert_ne by set_solver. apply IH. set_solver.
Qed.

Lemma to_map_lookup_Some (l : list A) (i : nat) (x : A) :
  NoDup (key <$> l) -> l !! i = Some x -> to_map l !! key x = Some x.
Proof.
  revert i; induction l as [|y l IH]; intros [|i] Hnd Hi; simplify_eq/=.
  - by rewrite to_map_cons, lookup_insert_eq.
  - apply NoDup_cons in Hnd as [Hy Hnd].
    rewrite to_map_cons, lookup_insert_ne; [by apply (IH i) |].
    intros Heq. apply Hy. rewrite Heq. apply list_elem_of_fmap_2.
    by eapply list_elem_of_lookup_2.
Qed.

Lemma key_in_tail (y : A) (l : list A) (i : nat) (x : A) :
  NoDup (key <$> y :: l) -> l !! i = Some x -> key y <> key x.
Proof.
  intros Hnd Hi Heq. apply NoDup_cons in Hnd as [Hy _]. apply Hy.
  rewrite Heq. apply list_elem_of_fmap_2. by eapply list_elem_of_lookup_2.
Qed.

Lemma to_map_insert (l : list A) (i : nat) (x y : A) :
  NoDup (key <$> l) -> l !! i = Some y -> key x = key y ->
  to_map (<[i:=x]> l) = <[key x:=x]> (to_map l).
Proof.
  revert i; induction l as [|z l IH]; intros [|i] Hnd Hi Hk; simplify_eq/=.
  - rewrite !to_map_cons, Hk. by rewrite insert_insert_eq.
  - pose proof (key_in_tail z l i y Hnd Hi).
    apply NoDup_cons in Hnd as [_ Hnd].
    rewrite !to_map_cons, (IH i), insert_insert_ne; [done | congruence | done..].
Qed.

Lemma to_map_delete (l : list A) (i : nat) (y : A) :
  NoDup (key <$> l) -> l !! i = Some y ->
  to_map (delete i l) = delete (key y) (to_map l).
Proof.
  revert i; induction l as [|z l IH]; intros [|i] Hnd Hi; simplify_eq/=.
  - apply NoDup_cons in Hnd as [Hz _].
    rewrite to_map_cons, delete_insert_eq, delete_id; [done |].
    by apply to_map_lookup_None.
  - pose proof (key_in_tail z l i y Hnd Hi).
    apply NoDup_cons in Hnd as [_ Hnd].
    rewrite !to_map_cons, (IH i), delete_insert_ne; [done | congruence | done..].
Qed.
End to_map.

#[export] Hint Resolve NoDup_fmap_delete NoDup_fmap_cons_fresh : argo.
