(* ===== verification/JsArray.v ===== *)
(** * JavaScript array built-ins used by the workflow list

    The watch callback of [workflows-list.tsx] mutates its array with
    [Array.prototype.findIndex], [splice], index assignment and
    [unshift].  These are ECMAScript built-ins, not code of the
    repository; they are modelled here after the ECMAScript definitions,
    as functions from the array's content before the call to its content
    after, so that the component files can translate the callback line by
    line.  A JavaScript index is a number; [findIndex] answers [-1] for
    "not found", so indices are [Z] here. *)

From S2P Require Import Prelude.

(** ** [findIndex] *)

Fixpoint find_index {A} (p : A -> bool) (l : list A) : option nat :=
  match l with
  | [] => None
  | x :: l' => if p x then Some 0 else S <$> find_index p l'
  end.

(** [arr.findIndex(callback)]: the first index whose element satisfies
    [callback], or [-1]. *)
Definition findIndex {A} (arr : list A) (callback : A -> bool) : Z :=
  match find_index callback arr with
  | Some i => Z.of_nat i
  | None => (-1)%Z
  end.

(** ** [splice] *)

(** The start position of [arr.splice(start, ...)] after ECMAScript's
    clamping: a negative start counts from the end. *)
Definition splice_start (len : nat) (start : Z) : nat :=
  if (start <? 0)%Z
  then Z.to_nat (Z.max 0 (Z.of_nat len + start))
  else Z.to_nat (Z.min start (Z.of_nat len)).

(** The array after [arr.splice(start, deleteCount)] (the removed
    elements, which the call returns, are not used by the code). *)
Definition splice {A} (arr : list A) (start deleteCount : Z) : list A :=
  let s := splice_start (length arr) start in
  take s arr ++ drop (s + Z.to_nat (Z.max 0 deleteCount)) arr.

(** ** Index assignment and [unshift] *)

(** [arr[index] = value] for an index inside the array.  Outside it,
    ECMAScript would grow the array with holes; stdpp's [insert] leaves
    the list unchanged there.  The only assignment of the code is guarded
    by [index > -1] on a [findIndex] result, which is in range
    ([findIndex_range]), so that case never arises. *)
Definition arraySet {A} (arr : list A) (index : Z) (value : A) : list A :=
  <[Z.to_nat index := value]> arr.

(** [arr.unshift(value)] with one argument. *)
Definition unshift {A} (arr : list A) (value : A) : list A := value :: arr.

(** ** A reflection view of [findIndex] *)

Variant findIndex_view {A} (p : A -> bool) (l : list A) : Z -> Prop :=
  | FIFound (i : nat) (x : A) :
      l !! i = Some x -> p x = true ->
      (forall j y, j < i -> l !! j = Some y -> p y = false) ->
      findIndex_view p l (Z.of_nat i)
  | FINone :
      (forall x, x ∈ l -> p x = false) -> findIndex_view p l (-1)%Z.

Lemma find_index_Some {A} (p : A -> bool) (l : list A) (i : nat) :
  find_index p l = Some i ->
  exists x, l !! i = Some x /\ p x = true /\
            (forall j y, j < i -> l !! j = Some y -> p y = false).
Proof.
  revert i; induction l as [|x l IH]; intros i; simpl; [done |].
  destruct (p x) eqn:Hx.
  - intros [= <-]. exists x. split_and!; [done | done | lia].
  - destruct (find_index p l) as [k|] eqn:Hk; simpl; [|done].
    intros [= <-]. destruct (IH k eq_refl) as (y & Hy & Hpy & Hmin).
    exists y. split_and!; [done | done |].
    intros [|j] z Hj Hz; simpl in Hz; [by simplify_eq | apply (Hmin j z); [lia | done]].
Qed.

Lemma find_index_None {A} (p : A -> bool) (l : list A) :
  find_index p l = None -> forall x, x ∈ l -> p x = false.
Proof.
  induction l as [|y l IH]; simpl; intros H x Hx; [set_solver |].
  destruct (p y) eqn:Hy; [done |].
  destruct (find_index p l); [done |].
  apply elem_of_cons in Hx as [->|Hx]; [done | by apply IH].
Qed.

Lemma findIndex_viewP {A} (p : A -> bool) (l : list A) :
  findIndex_view p l (findIndex l p).
Proof.
  unfold findIndex. destruct (find_index p l) as [i|] eqn:H.
  - destruct (find_index_Some p l i H) as (x & ? & ? & ?). by econstructor.
  - constructor. by apply find_index_None.
Qed.

(** [findIndex] answers [-1] or an index of the array. *)
Lemma findIndex_range {A} (p : A -> bool) (l : list A) :
  findIndex l p = (-1)%Z \/
  (0 <= findIndex l p /\ findIndex l p < Z.of_nat (length l))%Z.
Proof.
  destruct (findIndex_viewP p l) as [i x Hi _ _|]; [right | by left].
  apply lookup_lt_Some in Hi. lia.
Qed.

(** With unique keys, [findIndex] on a key finds the element holding it. *)
Lemma findIndex_key_unique {A K} (key : A -> K) (eqk : K -> K -> bool)
    (Heqk : forall a b, eqk a b = true <-> a = b)
    (l : list A) (k : K) (i : nat) (x : A) :
  NoDup (key <$> l) -> l !! i = Some x -> key x = k ->
  findIndex l (fun y => eqk (key y) k) = Z.of_nat i.
Proof.
  intros Hnd Hi Hk.
  destruct (findIndex_viewP (fun y => eqk (key y) k) l) as [j y Hj Hp _|Hnone].
  - apply Heqk in Hp. f_equal.
    eapply NoDup_lookup; [exact Hnd | | ].
    + by rewrite list_lookup_fmap, Hj.
    + rewrite list_lookup_fmap, Hi; simpl; congruence.
  - exfalso. assert (eqk (key x) k = true) as Hc by (by apply Heqk).
    rewrite Hnone in Hc; [done |]. by eapply list_elem_of_lookup_2.
Qed.

(** [splice(index, 1)] at an index of the array removes that element. *)
Lemma splice_one_delete {A} (l : list A) (i : Z) :
  (0 <= i < Z.of_nat (length l))%Z -> splice l i 1 = delete (Z.to_nat i) l.
Proof.
  intros Hi. unfold splice, splice_start.
  rewrite delete_take_drop. destruct (Z.ltb_spec i 0); [lia |].
  rewrite Z.min_l by lia. f_equal. f_equal. lia.
Qed.
