(* ===== verification/Model.v ===== *)
(** * The data model: workflows and watch events

    The pages import their types from the [models] package of the UI
    ([ui/src/models], not part of the sources given here): a [Workflow]
    is a Kubernetes object with [metadata] and a [status]; a watch stream
    yields [WatchEvent]s whose [type] is one of the four Kubernetes watch
    event kinds.  Only the fields the modelled code reads are kept; the
    rest of a workflow is carried unchanged by every operation, so it is
    left out.  Decidable equality is derived for each type so that
    [decide] and [simplify_eq] do the case analysis. *)

From S2P Require Import Prelude.

(** [metadata] of a Kubernetes object. *)
Record ObjectMeta := mkObjectMeta {
  name : string;
  namespace : string;
  uid : string;
  resourceVersion : string
}.

(** An entry of [status.nodes].  Rocq record fields share one name
    space, so the fields are prefixed with [node_]. *)
Record NodeStatus := mkNodeStatus {
  node_id : string;
  node_displayName : string;
  node_phase : string
}.

Record WorkflowStatus := mkWorkflowStatus {
  phase : string;
  nodes : gmap string NodeStatus
}.

(** An entry of [spec.arguments.parameters]. *)
Record WfParameter := mkWfParameter {
  param_name : string;
  param_value : option string
}.

(** [spec.arguments]; its [parameters] may be absent. *)
Record WfArguments := mkWfArguments {
  parameters : option (list WfParameter)
}.

Record WorkflowSpec := mkWorkflowSpec {
  arguments : option WfArguments
}.

Record Workflow := mkWorkflow {
  metadata : ObjectMeta;
  spec : WorkflowSpec;
  status : WorkflowStatus
}.

(** The [type] of a Kubernetes watch event. *)
Inductive WatchEventType := ADDED | MODIFIED | DELETED | ERROR.

Record WatchEvent := mkWatchEvent {
  type : WatchEventType;
  object : Workflow
}.

(** The values of [models.NODE_PHASE], the phases offered by the filter
    of the workflow list. *)
Definition NODE_PHASE : list string :=
  ["Pending"; "Running"; "Succeeded"; "Skipped"; "Failed"; "Error"]%string.

#[export] Instance ObjectMeta_eq_dec : EqDecision ObjectMeta.
Proof. solve_decision. Defined.
#[export] Instance NodeStatus_eq_dec : EqDecision NodeStatus.
Proof. solve_decision. Defined.
#[export] Instance WorkflowStatus_eq_dec : EqDecision WorkflowStatus.
Proof. solve_decision. Defined.
#[export] Instance WfParameter_eq_dec : EqDecision WfParameter.
Proof. solve_decision. Defined.
#[export] Instance WfArguments_eq_dec : EqDecision WfArguments.
Proof. solve_decision. Defined.
#[export] Instance WorkflowSpec_eq_dec : EqDecision WorkflowSpec.
Proof. solve_decision. Defined.
#[export] Instance Workflow_eq_dec : EqDecision Workflow.
Proof. solve_decision. Defined.
#[export] Instance WatchEventType_eq_dec : EqDecision WatchEventType.
Proof. solve_decision. Defined.
#[export] Instance WatchEvent_eq_dec : EqDecision WatchEvent.
Proof. solve_decision. Defined.

(** The name and version of a workflow, as the code reads them. *)
Definition wf_name (w : Workflow) : string := name (metadata w).
Definition wf_version (w : Workflow) : string := resourceVersion (metadata w).
