(* ===== verification/Reconcile.v ===== *)
(** * The reconciler: the watch callback of the workflow list

    [workflows-list.tsx], lines 87-106: for every [workflowChange] of the
    watch stream, the callback looks the workflow up by name in the
    array [workflows] captured from the snapshot, answers
    [{workflows, updated: false}] when the stored [resourceVersion]
    equals the incoming one, and otherwise removes ([DELETED]), replaces
    in place (present) or prepends (absent) the workflow and answers
    [{workflows, updated: true}]; the stream then keeps only the updated
    results and maps them to the array.

    [onWorkflowChange] maps the array's content before the callback to
    the returned record, whose [workflows] field is the content after the
    callback's mutation (the aliasing of that array is modelled in
    [Session.v]).  The theorems characterise every branch, show that
    name uniqueness is preserved, that applying an event twice is a no-op
    the second time, that it equals a reference definition without
    indices ([onWorkflowChange_ref]), and that the callback refines the
    keyed-map contract
    of the specification ([spec_apply] on the keyed view [view]) on every input but the two where
    the code departs from it. *)

From S2P Require Import Prelude JsArray Model.

(** The object [{workflows, updated}] the callback returns. *)
Record Update := mkUpdate {
  workflows : list Workflow;
  updated : bool
}.

(** The [.map(workflowChange => { ... })] callback, lines 87-104. *)
Definition onWorkflowChange (workflows : list Workflow) (workflowChange : WatchEvent)
    : Update :=
  let index := findIndex workflows
    (fun item => name (metadata item) === name (metadata (object workflowChange))) in
  if (index >? -1)%Z &&
     match workflows !! Z.to_nat index with
     | Some item =>
         resourceVersion (metadata (object workflowChange))
           === resourceVersion (metadata item)
     | None => false   (* unreachable: [index] is in range *)
     end
  then {| workflows := workflows; updated := false |}
  else
    let workflows' :=
      if decide (type workflowChange = DELETED) then
        if (index >? -1)%Z then splice workflows index 1 else workflows
      else if (index >? -1)%Z then arraySet workflows index (object workflowChange)
      else unshift workflows (object workflowChange) in
    {| workflows := workflows'; updated := true |}.

(** [.filter(item => item.updated).map(item => item.workflows)], lines
    105-106: what the stream passes on for one callback result. *)
Definition emitted (item : Update) : option (list Workflow) :=
  if updated item then Some (workflows item) else None.

(** The names of an array, the key the callback looks workflows up by. *)
Definition names (ws : list Workflow) : list string := wf_name <$> ws.

(** ** Looking a workflow up by name *)

Definition byName (c : WatchEvent) (item : Workflow) : bool :=
  name (metadata item) === name (metadata (object c)).

Lemma findIndex_name_present (ws : list Workflow) (c : WatchEvent) (i : nat) (w : Workflow) :
  NoDup (names ws) -> ws !! i = Some w -> wf_name w = wf_name (object c) ->
  findIndex ws (byName c) = Z.of_nat i.
Proof.
  intros Hnd Hi Hk.
  apply (findIndex_key_unique wf_name String.eqb String.eqb_eq ws _ i w Hnd Hi Hk).
Qed.

Lemma findIndex_name_absent (ws : list Workflow) (c : WatchEvent) :
  wf_name (object c) ∉ names ws -> findIndex ws (byName c) = (-1)%Z.
Proof.
  intros Hn. destruct (findIndex_viewP (byName c) ws) as [i x Hi Hp _|]; [|done].
  exfalso. apply Hn. apply js_streq_true in Hp.
  apply list_elem_of_fmap. exists x. split; [done |]. by eapply list_elem_of_lookup_2.
Qed.

(** The callback unfolded once the index is known. *)
Lemma onWorkflowChange_at (ws : list Workflow) (c : WatchEvent) (i : nat) (w : Workflow) :
  findIndex ws (byName c) = Z.of_nat i -> ws !! i = Some w ->
  onWorkflowChange ws c =
    if (wf_version (object c) === wf_version w) then mkUpdate ws false
    else if decide (type c = DELETED) then mkUpdate (delete i ws) true
    else mkUpdate (<[i:=object c]> ws) true.
Proof.
  intros Hidx Hi. unfold onWorkflowChange; cbv zeta; fold (byName c). rewrite Hidx, Nat2Z.id, Hi.
  assert ((Z.of_nat i >? -1)%Z = true) as -> by lia. simpl.
  unfold wf_version. destruct (resourceVersion (metadata (object c)) === resourceVersion (metadata w)); [done |].
  unfold arraySet. apply lookup_lt_Some in Hi.
  rewrite splice_one_delete, !Nat2Z.id by lia. by case_decide.
Qed.

Lemma onWorkflowChange_absent (ws : list Workflow) (c : WatchEvent) :
  findIndex ws (byName c) = (-1)%Z ->
  onWorkflowChange ws c =
    if decide (type c = DELETED) then mkUpdate ws true else mkUpdate (object c :: ws) true.
Proof. intros Hidx. unfold onWorkflowChange; cbv zeta; fold (byName c). rewrite Hidx; simpl. by case_decide. Qed.

(** Either the event's name is stored at some index, or it is absent. *)
Lemma name_lookup_cases (ws : list Workflow) (k : string) :
  (exists i w, ws !! i = Some w /\ wf_name w = k) \/ k ∉ names ws.
Proof.
  destruct (decide (k ∈ names ws)) as [Hin|]; [left | by right].
  apply list_elem_of_fmap in Hin as (w & -> & Hw).
  apply list_elem_of_lookup_1 in Hw as (i & Hi). eauto.
Qed.

(** The callback, by cases on whether the name is stored. *)
Lemma onWorkflowChange_cases (ws : list Workflow) (c : WatchEvent) :
  NoDup (names ws) ->
  (exists i w, ws !! i = Some w /\ wf_name w = wf_name (object c) /\
     onWorkflowChange ws c =
       (if (wf_version (object c) === wf_version w) then mkUpdate ws false
        else if decide (type c = DELETED) then mkUpdate (delete i ws) true
        else mkUpdate (<[i:=object c]> ws) true)) \/
  ((wf_name (object c) ∉ names ws) /\
     onWorkflowChange ws c =
       (if decide (type c = DELETED) then mkUpdate ws true
        else mkUpdate (object c :: ws) true)).
Proof.
  intros Hnd. destruct (name_lookup_cases ws (wf_name (object c))) as [(i & w & Hi & Hk)|Hn].
  - left. exists i, w. split_and!; [done | done |].
    apply onWorkflowChange_at; [by eapply findIndex_name_present | done].
  - right. split; [done |]. by apply onWorkflowChange_absent, findIndex_name_absent.
Qed.

(** ** The branches of the callback *)

(** An event for a stored workflow carrying the stored [resourceVersion]
    leaves the array unchanged and is not emitted, whatever its [type]. *)
Lemma onWorkflowChange_same_version (ws : list Workflow) (c : WatchEvent) (w : Workflow) :
  NoDup (names ws) -> w ∈ ws -> wf_name w = wf_name (object c) ->
  wf_version w = wf_version (object c) ->
  onWorkflowChange ws c = mkUpdate ws false.
Proof.
  intros Hnd Hw Hk Hv. apply list_elem_of_lookup_1 in Hw as (i & Hi).
  rewrite (onWorkflowChange_at ws c i w); [| by eapply findIndex_name_present | done].
  by rewrite Hv, js_streq_refl.
Qed.

(** C3: a non-[DELETED] event for a stored workflow with a different
    [resourceVersion] replaces it at its position, and is emitted. *)
Theorem onWorkflowChange_replace (ws : list Workflow) (c : WatchEvent) (i : nat) (w : Workflow) :
  NoDup (names ws) -> ws !! i = Some w -> wf_name w = wf_name (object c) ->
  wf_version w <> wf_version (object c) -> type c <> DELETED ->
  onWorkflowChange ws c = mkUpdate (<[i:=object c]> ws) true.
Proof.
  intros Hnd Hi Hk Hv Ht.
  rewrite (onWorkflowChange_at ws c i w); [| by eapply findIndex_name_present | done].
  case_streq (wf_version (object c)) (wf_version w); [congruence |]. by case_decide.
Qed.

(** C4: a non-[DELETED] event for a name not in the array prepends the
    workflow (most recent first), and is emitted. *)
Theorem onWorkflowChange_prepend (ws : list Workflow) (c : WatchEvent) :
  wf_name (object c) ∉ names ws -> type c <> DELETED ->
  onWorkflowChange ws c = mkUpdate (object c :: ws) true.
Proof.
  intros Hn Ht. rewrite onWorkflowChange_absent by (by apply findIndex_name_absent).
  by case_decide.
Qed.

(** C5: a [DELETED] event for a stored workflow with a different
    [resourceVersion] removes it, keeping the order of the others. *)
Theorem onWorkflowChange_delete (ws : list Workflow) (c : WatchEvent) (i : nat) (w : Workflow) :
  NoDup (names ws) -> ws !! i = Some w -> wf_name w = wf_name (object c) ->
  wf_version w <> wf_version (object c) -> type c = DELETED ->
  onWorkflowChange ws c = mkUpdate (delete i ws) true.
Proof.
  intros Hnd Hi Hk Hv Ht.
  rewrite (onWorkflowChange_at ws c i w); [| by eapply findIndex_name_present | done].
  case_streq (wf_version (object c)) (wf_version w); [congruence |]. by case_decide.
Qed.



(** ** Name uniqueness *)

(** The callback keeps the names of the array pairwise distinct. *)
Lemma onWorkflowChange_NoDup (ws : list Workflow) (c : WatchEvent) :
  NoDup (names ws) -> NoDup (names (workflows (onWorkflowChange ws c))).
Proof.
  intros Hnd. unfold names in *.
  destruct (onWorkflowChange_cases ws c Hnd) as [(i & w & Hi & Hk & ->)|(Hn & ->)].
  - destruct (_ === _); [done |]. case_decide; simpl; [by apply NoDup_fmap_delete |].
    by eapply NoDup_fmap_insert.
  - case_decide; simpl; [done |]. by apply NoDup_fmap_cons_fresh.
Qed.

#[export] Hint Resolve onWorkflowChange_NoDup : argo.

(** The workflow an event carries is stored after any non-[DELETED]
    event, whether it replaced an entry, was prepended, or was an echo. *)
Lemma onWorkflowChange_stores (ws : list Workflow) (c : WatchEvent) :
  NoDup (names ws) -> type c <> DELETED ->
  exists w, w ∈ workflows (onWorkflowChange ws c) /\
            wf_name w = wf_name (object c) /\ wf_version w = wf_version (object c).
Proof.
  intros Hnd Ht.
  destruct (onWorkflowChange_cases ws c Hnd) as [(i & w & Hi & Hk & ->)|(Hn & ->)].
  - case_streq (wf_version (object c)) (wf_version w).
    + exists w. split_and!; [by eapply list_elem_of_lookup_2 | done | done].
    + case_decide; [done |]. exists (object c). split_and!; [|done|done].
      eapply list_elem_of_lookup_2, list_lookup_insert_eq. by eapply lookup_lt_Some.
  - case_decide; [done |]. exists (object c). split_and!; [left | done | done].
Qed.

(** C8: applying the same non-[DELETED] event twice in a row changes
    nothing the second time and emits nothing. *)
Theorem onWorkflowChange_idempotent (ws : list Workflow) (c : WatchEvent) :
  NoDup (names ws) -> type c <> DELETED ->
  onWorkflowChange (workflows (onWorkflowChange ws c)) c =
    mkUpdate (workflows (onWorkflowChange ws c)) false.
Proof.
  intros Hnd Ht. destruct (onWorkflowChange_stores ws c Hnd Ht) as (w & Hw & Hk & Hv).
  eapply onWorkflowChange_same_version; eauto with argo.
Qed.

(** ** A reference definition without indices *)

(** The callback as it reads without [findIndex] and in-place mutation:
    look the stored workflow up by name with [List.find], drop every
    workflow of that name on a delete, map the replacement over the
    array on an update, and prepend an unknown workflow. *)
Definition onWorkflowChange_ref (ws : list Workflow) (c : WatchEvent) : Update :=
  let k := wf_name (object c) in
  match List.find (fun w => bool_decide (wf_name w = k)) ws with
  | Some w =>
      if wf_version (object c) === wf_version w then mkUpdate ws false
      else if decide (type c = DELETED) then mkUpdate (filter (fun w => wf_name w ≠ k) ws) true
      else mkUpdate ((fun w => if decide (wf_name w = k) then object c else w) <$> ws) true
  | None =>
      if decide (type c = DELETED) then mkUpdate ws true else mkUpdate (object c :: ws) true
  end.

(** C26: on an array with unique names, the index-based callback of the
    code ([findIndex], [splice(index, 1)], [workflows[index] = ...],
    [unshift]) computes exactly the reference definition, on every
    branch and for every event type. *)
Theorem onWorkflowChange_as_ref (ws : list Workflow) (c : WatchEvent) :
  NoDup (names ws) -> onWorkflowChange ws c = onWorkflowChange_ref ws c.
Proof.
  intros Hnd. unfold onWorkflowChange_ref.
  destruct (onWorkflowChange_cases ws c Hnd) as [(i & w & Hi & Hk & ->)|(Hn & ->)].
  - rewrite <- Hk, (find_key_unique wf_name ws i w Hnd Hi).
    by rewrite (delete_as_filter wf_name ws i w Hnd Hi), (insert_as_fmap wf_name ws i w _ Hnd Hi).
  - by rewrite find_key_absent.
Qed.

(** ** The keyed-map contract of the specification *)

(** The visible collection as a finite map from name to workflow. *)
Definition view (ws : list Workflow) : gmap string Workflow := to_map wf_name ws.

(** Section 4.2 of the specification, on the keyed view: a delete
    removes a present key and is a no-op on an absent one; an upsert is a
    no-op when the stored version equals the incoming one, and otherwise
    stores the incoming workflow. *)
Definition spec_apply (m : gmap string Workflow) (c : WatchEvent)
    : gmap string Workflow * bool :=
  let k := wf_name (object c) in
  match m !! k with
  | Some w =>
      if decide (type c = DELETED) then (delete k m, true)
      else if (wf_version w === wf_version (object c)) then (m, false)
      else (<[k:=object c]> m, true)
  | None =>
      if decide (type c = DELETED) then (m, false) else (<[k:=object c]> m, true)
  end.

(** C2: on an array with unique names, the callback implements the
    specification's contract on the keyed view -- the resulting map and
    the [updated] flag are those of [spec_apply] -- for every event except
    a [DELETED] event whose name is absent or stored with the same
    [resourceVersion]. *)
Theorem onWorkflowChange_refines (ws : list Workflow) (c : WatchEvent) :
  NoDup (names ws) ->
  (type c = DELETED -> exists w, view ws !! wf_name (object c) = Some w /\
                                 wf_version w <> wf_version (object c)) ->
  (view (workflows (onWorkflowChange ws c)), updated (onWorkflowChange ws c)) =
    spec_apply (view ws) c.
Proof.
  intros Hnd Hdel. unfold spec_apply.
  destruct (onWorkflowChange_cases ws c Hnd) as [(i & w & Hi & Hk & ->)|(Hn & ->)].
  - assert (view ws !! wf_name (object c) = Some w) as Hw.
    { rewrite <- Hk. by eapply to_map_lookup_Some. }
    rewrite Hw. case_streq (wf_version (object c)) (wf_version w); case_decide.
    + destruct (Hdel H) as (w' & Hw' & Hv). simplify_eq.
    + by rewrite E, js_streq_refl.
    + simpl. unfold view. rewrite <- Hk. by erewrite to_map_delete.
    + case_streq (wf_version w) (wf_version (object c)); [congruence |].
      simpl. unfold view. by erewrite to_map_insert.
  - assert (view ws !! wf_name (object c) = None) as Hnone by by apply to_map_lookup_None.
    rewrite Hnone. case_decide; [| done].
    destruct (Hdel H) as (w' & Hw' & _). congruence.
Qed.

(** C9: the code departs from the contract on a [DELETED] event that
    carries the stored [resourceVersion]: the workflow stays in the array
    and nothing is emitted, whereas the contract removes it. *)
Theorem onWorkflowChange_delete_same_version (ws : list Workflow) (c : WatchEvent) (w : Workflow) :
  NoDup (names ws) -> w ∈ ws -> wf_name w = wf_name (object c) ->
  wf_version w = wf_version (object c) -> type c = DELETED ->
  w ∈ workflows (onWorkflowChange ws c) /\ emitted (onWorkflowChange ws c) = None /\
  (spec_apply (view ws) c).1 !! wf_name w = None /\ (spec_apply (view ws) c).2 = true.
Proof.
  intros Hnd Hw Hk Hv Ht.
  rewrite (onWorkflowChange_same_version ws c w) by done.
  apply list_elem_of_lookup_1 in Hw as Hi. destruct Hi as [i Hi].
  unfold spec_apply, view. rewrite <- Hk, (to_map_lookup_Some wf_name ws i w Hnd Hi).
  case_decide; [| done]. simpl. by rewrite lookup_delete_eq.
Qed.

(** C10: a [DELETED] event for a name not in the array leaves it
    unchanged but is reported as [updated] and therefore emitted, whereas
    the contract reports no change. *)
Theorem onWorkflowChange_delete_absent (ws : list Workflow) (c : WatchEvent) :
  wf_name (object c) ∉ names ws -> type c = DELETED ->
  onWorkflowChange ws c = mkUpdate ws true /\ emitted (onWorkflowChange ws c) = Some ws /\
  spec_apply (view ws) c = (view ws, false).
Proof.
  intros Hn Ht. rewrite onWorkflowChange_absent by (by apply findIndex_name_absent).
  unfold spec_apply, view. rewrite to_map_lookup_None by done. by case_decide.
Qed.

(** ** The watch stream over a sequence of events *)

(** [.map(workflowChange => ...)] over the events of the stream, the
    array threaded from one call to the next. *)
Fixpoint mapChanges (workflows : list Workflow) (changes : list WatchEvent) : list Update :=
  match changes with
  | [] => []
  | workflowChange :: rest =>
      let item := onWorkflowChange workflows workflowChange in
      item :: mapChanges (Reconcile.workflows item) rest
  end.

(** Lines 85-106: the values the watch branch of the merge passes on,
    read at the moment each is emitted. *)
Definition watchPipeline (workflows : list Workflow) (changes : list WatchEvent)
    : list (list Workflow) :=
  omap emitted (mapChanges workflows changes).

(** ** The theorems on concrete arrays *)

Module Instances.
Definition wf (n v : string) : Workflow :=
  mkWorkflow (mkObjectMeta n "argo" "" v) (mkWorkflowSpec None) (mkWorkflowStatus "Running" ∅).
Definition w1 := wf "1" "1".
Definition w2 := wf "2" "1".
Definition w2' := wf "2" "2".
Definition w3 := wf "3" "1".
End Instances.
Import Instances.

Lemma onWorkflowChange_replace_witness :
  onWorkflowChange [w1; w2] (mkWatchEvent MODIFIED w2') = mkUpdate [w1; w2'] true.
Proof.
  apply (onWorkflowChange_replace [w1; w2] (mkWatchEvent MODIFIED w2') 1 w2); concrete.
Defined.

Lemma onWorkflowChange_prepend_witness :
  onWorkflowChange [w1; w2] (mkWatchEvent ADDED w3) = mkUpdate [w3; w1; w2] true.
Proof. apply onWorkflowChange_prepend; concrete. Defined.

Lemma onWorkflowChange_delete_witness :
  onWorkflowChange [w1; w2'] (mkWatchEvent DELETED w2) = mkUpdate [w1] true.
Proof.
  apply (onWorkflowChange_delete [w1; w2'] (mkWatchEvent DELETED w2) 1 w2'); concrete.
Defined.

Lemma onWorkflowChange_idempotent_witness :
  onWorkflowChange (workflows (onWorkflowChange [w1; w2] (mkWatchEvent MODIFIED w2')))
    (mkWatchEvent MODIFIED w2') =
  mkUpdate (workflows (onWorkflowChange [w1; w2] (mkWatchEvent MODIFIED w2'))) false.
Proof. apply onWorkflowChange_idempotent; concrete. Defined.

Lemma onWorkflowChange_refines_witness :
  (view (workflows (onWorkflowChange [w1; w2] (mkWatchEvent DELETED w2'))),
   updated (onWorkflowChange [w1; w2] (mkWatchEvent DELETED w2'))) =
  spec_apply (view [w1; w2]) (mkWatchEvent DELETED w2').
Proof.
  apply onWorkflowChange_refines; [concrete |].
  intros _. exists w2. split; concrete.
Defined.

Lemma onWorkflowChange_delete_same_version_witness :
  w2 ∈ workflows (onWorkflowChange [w1; w2] (mkWatchEvent DELETED w2)) /\
  emitted (onWorkflowChange [w1; w2] (mkWatchEvent DELETED w2)) = None /\
  (spec_apply (view [w1; w2]) (mkWatchEvent DELETED w2)).1 !! wf_name w2 = None /\
  (spec_apply (view [w1; w2]) (mkWatchEvent DELETED w2)).2 = true.
Proof. apply onWorkflowChange_delete_same_version; concrete. Defined.

Lemma onWorkflowChange_delete_absent_witness :
  onWorkflowChange [w1] (mkWatchEvent DELETED w3) = mkUpdate [w1] true /\
  emitted (onWorkflowChange [w1] (mkWatchEvent DELETED w3)) = Some [w1] /\
  spec_apply (view [w1]) (mkWatchEvent DELETED w3) = (view [w1], false).
Proof. apply onWorkflowChange_delete_absent; concrete. Defined.

Lemma onWorkflowChange_as_ref_witness :
  onWorkflowChange [w1; w2] (mkWatchEvent MODIFIED w2') =
    onWorkflowChange_ref [w1; w2] (mkWatchEvent MODIFIED w2').
Proof. apply onWorkflowChange_as_ref. concrete. Defined.
