(* ===== verification/Session.v ===== *)
(** * The subscription session of the workflow list

    [workflows-list.tsx], lines 79-109: argo-ui's [DataLoader] calls
    [load(phases)] when the page mounts and whenever its [input] (the
    phase filter) changes, unsubscribing the previous subscription; it
    renders each value the observable emits.  [load] is

      [Observable.fromPromise(services.workflows.list(phases, ''))
         .flatMap(workflows => Observable.merge(
            Observable.from([workflows]),
            services.workflows.watch(phases).map(cb).filter(..).map(..)))]

    so one subscription requests the snapshot, emits the snapshot array,
    subscribes to the watch stream, and for each change runs the callback
    of [Reconcile.v] on that same array, emitting the array again when
    the change was not a no-op.  Errors of the promise or of the watch
    end the subscription with an error notification.

    The model is a step function [step] on a [Session] record.  The
    JavaScript heap is explicit ([heap : gmap loc (list Workflow)]): the
    snapshot array is allocated once per subscription, the callback
    mutates it in place, and every emission hands out its location, as
    the code hands out the same array reference.  The environment
    (backend answers, watch events, page navigation) is the [Input]
    sequence; inputs addressed to a subscription carry its number, so
    answers that arrive for a subscription the [DataLoader] has dropped
    are ignored, as RxJS ignores them once unsubscribed.  The session is
    a [Section] over the [Reconciler] interface, so its theorems use only
    the reconciler's laws; [onWorkflowChange] is the instance the code
    uses.  The theorems are the invariant of the reachable states, the
    guarantees of the observable (snapshot first, one emission per
    input, nothing after an error or an unsubscription, termination of
    the lifecycle by a rank on phases), and the behaviour on filtering
    and resubscription. *)

From S2P Require Import Prelude JsArray Model Reconcile.

(** ** The reconciler interface the session relies on *)

Class Reconciler := {
  reconcile : list Workflow -> WatchEvent -> Update;
  (** a change reported as not updated left the array as it was *)
  reconcile_noop ws c : updated (reconcile ws c) = false -> workflows (reconcile ws c) = ws;
  (** the callback keeps names unique *)
  reconcile_NoDup ws c : NoDup (names ws) -> NoDup (names (workflows (reconcile ws c)))
}.

Lemma onWorkflowChange_noop (ws : list Workflow) (c : WatchEvent) :
  updated (onWorkflowChange ws c) = false -> workflows (onWorkflowChange ws c) = ws.
Proof.
  unfold onWorkflowChange; cbv zeta.
  destruct (_ && _); [done |]. simpl. congruence.
Qed.

#[export] Instance code_reconciler : Reconciler := {|
  reconcile := onWorkflowChange;
  reconcile_noop := onWorkflowChange_noop;
  reconcile_NoDup := onWorkflowChange_NoDup
|}.

(** ** State, inputs and outputs *)

(** A location of the JavaScript heap. *)
Abbreviation loc := positive.

(** Where the current subscription is in the [fromPromise(..).flatMap(
    merge(from([workflows]), watch))] pipeline. *)
Inductive Phase :=
  | Idle                                        (* nothing subscribed yet *)
  | Fetching (phases : list string)             (* list promise pending *)
  | Streaming (phases : list string) (arr : loc) (* snapshot emitted, watch open *)
  | Failed                                      (* error delivered, subscription over *)
  | Closed.                                     (* unsubscribed or completed *)

Record Session := mkSession {
  sphase : Phase;
  sid : nat;                          (* the current subscription's number *)
  heap : gmap loc (list Workflow);    (* the arrays *)
  next_loc : loc                      (* the next free location *)
}.

Inductive Input :=
  | Subscribe (phases : list string)            (* DataLoader calls load(phases) *)
  | ListResolved (id : nat) (ws : list Workflow) (* list promise resolves *)
  | ListRejected (id : nat) (err : string)       (* list promise rejects *)
  | WatchNext (id : nat) (c : WatchEvent)        (* the watch stream emits *)
  | WatchError (id : nat) (err : string)         (* the watch stream fails *)
  | WatchComplete (id : nat)                     (* the watch stream ends *)
  | Unsubscribe.                                 (* DataLoader unmounts *)

Inductive Output :=
  | RequestList (id : nat) (phases : list string) (* services.workflows.list(phases, '') *)
  | OpenWatch (id : nat) (phases : list string)   (* services.workflows.watch(phases) *)
  | CloseWatch (id : nat)                         (* its subscription released *)
  | Next (arr : loc)                              (* a value handed to the DataLoader *)
  | Error (err : string).                         (* an error handed to the DataLoader *)

Definition init : Session := mkSession Idle 0 ∅ 1.

Section session.
Context `{Reconciler}.

Definition set_phase (s : Session) (p : Phase) : Session :=
mkSession p (sid s) (heap s) (next_loc s).

(** Unsubscribing releases the watch subscription if one is open (the
  pending promise cannot be cancelled; its answer is dropped). *)
Definition release (s : Session) : list Output :=
match sphase s with
| Streaming _ _ => [CloseWatch (sid s)]
| _ => []
end.

(** One input of the environment, lines 79-109. *)
Definition step (s : Session) (i : Input) : Session * list Output :=
match i, sphase s with
| Subscribe phases, _ =>
    (mkSession (Fetching phases) (S (sid s)) (heap s) (next_loc s),
     release s ++ [RequestList (S (sid s)) phases])
| Unsubscribe, _ => (set_phase s Closed, release s)
| ListResolved id workflows, Fetching phases =>
    if decide (id = sid s) then
      let arr := next_loc s in
      (mkSession (Streaming phases arr) (sid s) (<[arr:=workflows]> (heap s))
         (Pos.succ arr),
       [Next arr; OpenWatch (sid s) phases])
    else (s, [])
| ListRejected id err, Fetching _ =>
    if decide (id = sid s) then (set_phase s Failed, [Error err]) else (s, [])
| WatchNext id workflowChange, Streaming _ arr =>
    if decide (id = sid s) then
      match heap s !! arr with
      | Some workflows =>
          let item := reconcile workflows workflowChange in
          (mkSession (sphase s) (sid s) (<[arr:=Reconcile.workflows item]> (heap s))
             (next_loc s),
           if updated item then [Next arr] else [])
      | None => (s, [])
      end
    else (s, [])
| WatchError id err, Streaming _ _ =>
    if decide (id = sid s) then (set_phase s Failed, [Error err]) else (s, [])
| WatchComplete id, Streaming _ _ =>
    if decide (id = sid s) then (set_phase s Closed, []) else (s, [])
| _, _ => (s, [])
end.

(** A sequence of inputs, with all outputs in order. *)
Fixpoint run (s : Session) (inputs : list Input) : Session * list Output :=
match inputs with
| [] => (s, [])
| i :: rest =>
    let '(s1, o1) := step s i in
    let '(s2, o2) := run s1 rest in
    (s2, o1 ++ o2)
end.
End session.

(** ** Well-formed sessions *)

Section invariant.
Context `{Reconciler}.

(** The environment's assumption: a snapshot has unique names.  It holds
  for a list taken from a single namespace; the code calls
  [list(phases, '')] across all namespaces, where two workflows may share
  a name, so the theorems that use it state it as a hypothesis. *)
Definition snapshot_ok (i : Input) : Prop :=
match i with
| ListResolved _ ws => NoDup (names ws)
| _ => True
end.

(** The states the session reaches from [init]. *)
Inductive reachable : Session -> Prop :=
| reach_init : reachable init
| reach_step s i : reachable s -> snapshot_ok i -> reachable (step s i).1.

(** Every array has unique names, no array lives at or above
  [next_loc], and the streamed array is allocated. *)
Record session_wf (s : Session) : Prop := {
wf_arrays l ws : heap s !! l = Some ws -> NoDup (names ws);
wf_fresh l : (next_loc s <= l)%positive -> heap s !! l = None;
wf_streaming p l : sphase s = Streaming p l -> is_Some (heap s !! l)
}.

Lemma init_wf : session_wf init.
Proof. split; simpl; [by intros ?? | by intros ?? | done]. Qed.

Lemma set_phase_wf s p :
session_wf s -> (forall p' l, p = Streaming p' l -> is_Some (heap s !! l)) ->
session_wf (set_phase s p).
Proof. intros [Ha Hf Hs] Hp. split; simpl; eauto. Qed.

Lemma step_wf s i : session_wf s -> snapshot_ok i -> session_wf (step s i).1.
Proof.
intros Hwf Hok. pose proof Hwf as [Ha Hf Hs].
destruct i; simpl; try (destruct (sphase s) eqn:Hp; simpl; try done);
  repeat case_decide; simpl; try done;
  try (apply set_phase_wf; [done | by intros ?? [=]]).
- split; simpl.
  + intros l ws'. rewrite lookup_insert. case_decide; [intros [= <-]; done | apply Ha].
  + intros l Hl. rewrite lookup_insert_ne by lia. apply Hf. lia.
  + intros ?? [= _ <-]. by rewrite lookup_insert_eq.
- destruct (heap s !! arr) as [ws|] eqn:Hws; [| done]. split; simpl.
  + intros l ws'. rewrite lookup_insert. case_decide; [intros [= <-] | apply Ha].
    apply reconcile_NoDup. by eapply Ha.
  + intros l Hl. rewrite lookup_insert_ne; [by apply Hf |].
    intros ->. rewrite Hf in Hws; [done | lia].
  + intros ?? [= _ <-]. by rewrite lookup_insert_eq.
Qed.

Lemma reachable_wf s : reachable s -> session_wf s.
Proof. induction 1; [apply init_wf | by apply step_wf]. Qed.
End invariant.

(** ** Runs without a new subscription *)

Definition is_subscribe (i : Input) : bool :=
  match i with Subscribe _ => true | _ => false end.

(** The inputs contain no [Subscribe]: the [DataLoader] keeps its input. *)
Definition no_subscribe (inputs : list Input) : Prop :=
  Forall (fun i => is_subscribe i = false) inputs.

(** The phases in which the subscription is over or not started. *)
Definition quiet (p : Phase) : bool :=
  match p with Idle | Failed | Closed => true | _ => false end.

Definition is_emission (o : Output) : bool :=
  match o with Next _ | Error _ => true | _ => false end.

Section runs.
Context `{Reconciler}.

Lemma run_cons s i inputs :
run s (i :: inputs) = ((run (step s i).1 inputs).1, (step s i).2 ++ (run (step s i).1 inputs).2).
Proof. simpl. by destruct (step s i), (run _ inputs). Qed.

Lemma step_quiet s i :
quiet (sphase s) = true -> is_subscribe i = false ->
(step s i).2 = [] /\ quiet (sphase (step s i).1) = true.
Proof.
intros Hq Hi. unfold step, release.
destruct i; [done | ..]; destruct (sphase s) eqn:Hp;
  simpl in Hq |- *; try discriminate; rewrite ?Hp; done.
Qed.

(** Once the subscription is over, no input but a new subscription
  produces any output. *)
Lemma run_quiet s inputs :
quiet (sphase s) = true -> no_subscribe inputs -> (run s inputs).2 = [].
Proof.
intros Hq Hin. revert s Hq. induction Hin as [|i inputs Hi _ IH]; intros s Hq; [done |].
rewrite run_cons. destruct (step_quiet s i Hq Hi) as [-> Hq'].
by rewrite IH.
Qed.

Lemma step_error_quiet s i e :
Error e ∈ (step s i).2 -> quiet (sphase (step s i).1) = true.
Proof.
unfold step, release.
destruct i, (sphase s); simpl; repeat case_decide; simpl;
  try (destruct (heap s !! _); [destruct (updated _)|]); simpl;
  rewrite ?list_elem_of_cons, ?list_elem_of_app; set_solver.
Qed.

(** A step from a streaming state outside a new subscription stays on
  the same array or ends the subscription. *)
Lemma step_streaming s i p l :
sphase s = Streaming p l -> is_subscribe i = false ->
(sphase (step s i).1 = Streaming p l \/ quiet (sphase (step s i).1) = true) /\
(forall l', Next l' ∈ (step s i).2 -> l' = l).
Proof.
intros Hs Hi. unfold step, release. rewrite Hs.
destruct i; [done | ..]; simpl; repeat case_decide; simpl;
  try (destruct (heap s !! l); [destruct (updated _)|]); simpl;
  rewrite ?Hs; split; try (by left); try (by right); set_solver.
Qed.

(** C15: within a subscription every value handed to the consumer is
  the same array: from a streaming state, whatever the inputs short of
  a new subscription, every [Next] carries the streamed location. *)
Theorem emissions_share_array (s : Session) (inputs : list Input) (p : list string) (l : loc) :
sphase s = Streaming p l -> no_subscribe inputs ->
forall l', Next l' ∈ (run s inputs).2 -> l' = l.
Proof.
intros Hs Hin. revert s Hs. induction Hin as [|i inputs Hi Hin IH]; intros s Hs; [set_solver |].
rewrite run_cons. destruct (step_streaming s i p l Hs Hi) as [[Hs'|Hq] Hout];
  intros l' Hl'; apply elem_of_app in Hl' as [Hl'|Hl']; [by apply Hout | by eapply IH | by apply Hout |].
rewrite run_quiet in Hl' by done. set_solver.
Qed.
End runs.

(** ** The guarantees of the session *)

Section guarantees.
Context `{Reconciler}.

(** C7: after the [DataLoader] unsubscribes, the only output is the
  release of the open watch subscription, and no later input -- an
  answer or a watch event already in flight included -- produces any
  output until a new subscription. *)
Theorem unsubscribe_silences (s : Session) (inputs : list Input) :
no_subscribe inputs ->
(step s Unsubscribe).2 = release s /\ (run (step s Unsubscribe).1 inputs).2 = [].
Proof. intros Hin. split; [done |]. by apply run_quiet. Qed.

(** C13: an error is delivered at most once per subscription: after a
  step that emits an error, no input but a new subscription produces
  any output. *)
Theorem error_at_most_once (s : Session) (i : Input) (err : string) (inputs : list Input) :
Error err ∈ (step s i).2 -> no_subscribe inputs -> (run (step s i).1 inputs).2 = [].
Proof. intros He Hin. apply run_quiet; [by eapply step_error_quiet | done]. Qed.

(** C14: every input produces at most one value or error for the
  consumer (requests to the backend aside). *)
Theorem one_emission_per_input (s : Session) (i : Input) :
length (filter is_emission (step s i).2) <= 1.
Proof.
unfold step, release.
destruct i, (sphase s); simpl; repeat case_decide; simpl;
  try (destruct (heap s !! _); [destruct (updated _)|]); simpl; lia.
Qed.
End guarantees.

(** C1: in every session reachable from the initial state through
    snapshots with unique names, every array the page holds has unique
    names. *)
Theorem reachable_names_unique (s : Session) (l : loc) (ws : list Workflow) :
  reachable s -> heap s !! l = Some ws -> NoDup (names ws).
Proof. intros Hr. by apply reachable_wf. Qed.

(** ** The snapshot comes first *)

Section snapshot.
Context `{Reconciler}.

(** A step from a fetching state: the answer to the pending request,
  an ignored input, or the end of the subscription without a value. *)
Lemma step_fetching s i p :
sphase s = Fetching p -> is_subscribe i = false ->
(exists ws, i = ListResolved (sid s) ws) \/ step s i = (s, []) \/
(quiet (sphase (step s i).1) = true /\ forall l, Next l ∉ (step s i).2).
Proof.
intros Hs Hi. unfold step, release. rewrite Hs.
destruct i; [done | ..]; simpl; try (by right; left);
  repeat case_decide; subst; try (by left; eexists); try (by right; left);
  right; right; split; set_solver.
Qed.

Lemma step_list_resolved s p ws :
sphase s = Fetching p ->
step s (ListResolved (sid s) ws) =
  (mkSession (Streaming p (next_loc s)) (sid s) (<[next_loc s:=ws]> (heap s))
     (Pos.succ (next_loc s)),
   [Next (next_loc s); OpenWatch (sid s) p]).
Proof. intros Hs. unfold step. rewrite Hs. by rewrite decide_True. Qed.

Lemma run_fetching s p inputs l :
sphase s = Fetching p -> no_subscribe inputs -> Next l ∈ (run s inputs).2 ->
exists pre ws post,
  inputs = pre ++ ListResolved (sid s) ws :: post /\
  (run s inputs).2 = Next (next_loc s) :: OpenWatch (sid s) p ::
                       (run (step s (ListResolved (sid s) ws)).1 post).2 /\
  heap (step s (ListResolved (sid s) ws)).1 !! next_loc s = Some ws.
Proof.
intros Hs Hin. induction Hin as [|i inputs Hi Hin IH]; intros Hl; [set_solver |].
rewrite run_cons in Hl |- *.
destruct (step_fetching s i p Hs Hi) as [[ws ->]|[Hst|[Hq Hno]]].
- exists [], ws, inputs. rewrite (step_list_resolved s p ws Hs).
  simpl. by rewrite lookup_insert_eq.
- rewrite Hst in Hl |- *. simpl in *.
  destruct (IH Hl) as (pre & ws & post & -> & Hout & Hheap).
  by exists (i :: pre), ws, post.
- rewrite run_quiet in Hl by done. set_solver.
Qed.

(** C6: within a subscription the consumer's first value is the
  snapshot: if the subscription emits anything, its outputs begin
  with the snapshot array -- freshly allocated and holding exactly the
  list the backend answered -- followed by the opening of the watch
  stream, so no watch-driven value precedes it. *)
Theorem snapshot_first (s : Session) (p : list string) (inputs : list Input) (l : loc) :
no_subscribe inputs ->
Next l ∈ (run (step s (Subscribe p)).1 inputs).2 ->
exists pre ws post,
  inputs = pre ++ ListResolved (S (sid s)) ws :: post /\
  (run (step s (Subscribe p)).1 inputs).2 =
    Next (next_loc s) :: OpenWatch (S (sid s)) p ::
      (run (step (step s (Subscribe p)).1 (ListResolved (S (sid s)) ws)).1 post).2 /\
  heap (step (step s (Subscribe p)).1 (ListResolved (S (sid s)) ws)).1 !! next_loc s
    = Some ws.
Proof. intros Hin Hl. exact (run_fetching (step s (Subscribe p)).1 p inputs l eq_refl Hin Hl). Qed.
End snapshot.

(** ** Filtering and resubscription *)

(** C16: the page does not filter events by the selected phases: a
    watch event for an unknown workflow whose phase is not selected is
    prepended to the array and emitted. *)
Theorem watch_event_not_filtered (s : Session) (p : list string) (l : loc)
    (ws : list Workflow) (c : WatchEvent) :
  sphase s = Streaming p l -> heap s !! l = Some ws ->
  wf_name (object c) ∉ names ws -> type c <> DELETED -> phase (status (object c)) ∉ p ->
  step s (WatchNext (sid s) c) =
    (mkSession (sphase s) (sid s) (<[l:=object c :: ws]> (heap s)) (next_loc s), [Next l]).
Proof.
  intros Hs Hl Hn Ht _. unfold step. rewrite Hs, decide_True, Hl by done. simpl.
  rewrite onWorkflowChange_absent by (by apply findIndex_name_absent).
  by rewrite decide_False.
Qed.

(** C17: changing the filter starts afresh: after [Subscribe] and the new
    snapshot, the streamed array is a location never used before holding
    exactly the new snapshot, and answers and events still addressed to
    the previous subscription are ignored. *)
Theorem resubscribe_fresh (s : Session) (p : list string) (ws ws' : list Workflow) (c : WatchEvent) :
  reachable s ->
  let s2 := (step (step s (Subscribe p)).1 (ListResolved (S (sid s)) ws)).1 in
  heap s !! next_loc s = None /\ sphase s2 = Streaming p (next_loc s) /\
  heap s2 !! next_loc s = Some ws /\
  step s2 (WatchNext (sid s) c) = (s2, []) /\ step s2 (ListResolved (sid s) ws') = (s2, []).
Proof.
  intros Hr s2. split; [apply (wf_fresh _ (reachable_wf s Hr)); lia |].
  unfold s2. rewrite (step_list_resolved (step s (Subscribe p)).1 p ws) by done.
  simpl. rewrite lookup_insert_eq. split_and!; [done | done | |].
  - unfold step. simpl. rewrite decide_False; [done | lia].
  - done.
Qed.

(** ** The lifecycle of a subscription terminates *)

#[export] Instance Phase_eq_dec : EqDecision Phase.
Proof. solve_decision. Defined.

(** The order of section 4.3 of the specification, [Fetching ->
    Streaming -> Failed -> Closed] with [Idle] before [Closed], as a
    rank that no step of a subscription increases. *)
Definition phase_rank (p : Phase) : nat :=
  match p with
  | Fetching _ => 3
  | Streaming _ _ => 2
  | Idle | Failed => 1
  | Closed => 0
  end.

Section lifecycle.
Context `{Reconciler}.

(** The number of steps of a run that change the phase. *)
Fixpoint transitions (s : Session) (inputs : list Input) : nat :=
  match inputs with
  | [] => 0
  | i :: rest =>
      (if bool_decide (sphase (step s i).1 = sphase s) then 0 else 1) + transitions (step s i).1 rest
  end.

(** A step that is not a new subscription keeps the phase or lowers
    its rank. *)
Lemma step_rank s i :
  is_subscribe i = false ->
  sphase (step s i).1 = sphase s \/ phase_rank (sphase (step s i).1) < phase_rank (sphase s).
Proof.
  intros Hi. unfold step, release, set_phase.
  destruct i; [done | ..]; destruct (sphase s) eqn:Hp; simpl; repeat case_decide; simpl;
    try (destruct (heap s !! _); simpl); rewrite ?Hp; (left; done) || (right; simpl; lia).
Qed.

(** C31: the lifecycle of a subscription terminates: as long as the
    [DataLoader] keeps its input, the phase changes at most as many
    times as its rank -- at most three times, [Fetching -> Streaming ->
    Failed -> Closed] -- so the session never cycles back to fetching
    or streaming without a new subscription (no retry, no reconnect). *)
Theorem subscription_lifecycle_terminates (s : Session) (inputs : list Input) :
  no_subscribe inputs -> transitions s inputs <= phase_rank (sphase s) <= 3.
Proof.
  intros Hin. split; [| by destruct (sphase s); simpl; lia].
  revert s. induction Hin as [|i inputs Hi _ IH]; intros s; simpl; [lia |].
  specialize (IH (step s i).1).
  destruct (step_rank s i Hi) as [Heq|Hlt]; [rewrite bool_decide_eq_true_2, <- Heq by done; lia |].
  case_bool_decide as Heq; [rewrite Heq in Hlt; lia | lia].
Qed.
End lifecycle.

(** ** The theorems on concrete sessions *)

Import Instances.

Module SessionInstances.
Definition running : list string := ["Running"%string].
Definition s_fetch : Session := (step init (Subscribe running)).1.
Definition s_stream : Session := (step s_fetch (ListResolved 1 [w1; w2])).1.
Definition c3 : WatchEvent := mkWatchEvent ADDED w3.
End SessionInstances.
Import SessionInstances.

Lemma s_stream_reachable : reachable s_stream.
Proof.
  apply reach_step; [apply reach_step; [apply reach_init | concrete] | concrete].
Qed.

Lemma reachable_names_unique_witness : NoDup (names [w1; w2]).
Proof. apply (reachable_names_unique s_stream 1); [apply s_stream_reachable | concrete]. Defined.

Lemma unsubscribe_silences_witness :
  (step s_stream Unsubscribe).2 = release s_stream /\
  (run (step s_stream Unsubscribe).1 [WatchNext 1 c3; ListResolved 1 []]).2 = [].
Proof. apply unsubscribe_silences; concrete. Defined.

Lemma error_at_most_once_witness :
  (run (step s_stream (WatchError 1 "closed")).1 [WatchNext 1 c3]).2 = [].
Proof. apply (error_at_most_once s_stream (WatchError 1 "closed") "closed"); concrete. Defined.

Lemma emissions_share_array_witness : (1%positive : loc) = 1%positive.
Proof.
  apply (emissions_share_array s_stream [WatchNext 1 c3; WatchNext 1 (mkWatchEvent MODIFIED w2')]
           running 1); concrete.
Defined.

Lemma snapshot_first_witness :
  exists pre ws post,
    [ListResolved 1 [w1]; WatchNext 1 c3] = pre ++ ListResolved (S (sid init)) ws :: post /\
    (run (step init (Subscribe running)).1 [ListResolved 1 [w1]; WatchNext 1 c3]).2 =
      Next (next_loc init) :: OpenWatch (S (sid init)) running ::
        (run (step (step init (Subscribe running)).1 (ListResolved (S (sid init)) ws)).1 post).2 /\
    heap (step (step init (Subscribe running)).1 (ListResolved (S (sid init)) ws)).1 !! next_loc init
      = Some ws.
Proof. apply (snapshot_first init running _ 1); concrete. Defined.

Lemma watch_event_not_filtered_witness :
  step s_stream (WatchNext (sid s_stream) (mkWatchEvent ADDED (mkWorkflow (metadata w3) (spec w3)
          (mkWorkflowStatus "Failed" ∅)))) =
    (mkSession (sphase s_stream) (sid s_stream)
       (<[1%positive:=mkWorkflow (metadata w3) (spec w3) (mkWorkflowStatus "Failed" ∅) :: [w1; w2]]>
          (heap s_stream)) (next_loc s_stream), [Next 1]).
Proof. apply (watch_event_not_filtered s_stream running); concrete. Defined.

Lemma resubscribe_fresh_witness :
  let s2 := (step (step s_stream (Subscribe ["Failed"%string])).1
                (ListResolved (S (sid s_stream)) [w3])).1 in
  heap s_stream !! next_loc s_stream = None /\
  sphase s2 = Streaming ["Failed"%string] (next_loc s_stream) /\
  heap s2 !! next_loc s_stream = Some [w3] /\
  step s2 (WatchNext (sid s_stream) c3) = (s2, []) /\
  step s2 (ListResolved (sid s_stream) [w1]) = (s2, []).
Proof. apply resubscribe_fresh. apply s_stream_reachable. Defined.

Lemma subscription_lifecycle_terminates_witness :
  transitions s_fetch [ListResolved 1 [w1; w2]; WatchError 1 "gone"; Unsubscribe] <=
    phase_rank (sphase s_fetch) <= 3.
Proof. apply subscription_lifecycle_terminates. concrete. Defined.

