(* ===== verification/UrlSearchParams.v ===== *)
(** * The browser's [URLSearchParams]

    The pages read and write their state in the URL query with the
    browser's [URLSearchParams]: [new URLSearchParams(location.search)],
    [get], [getAll], [set], [delete] and [toString].  These are browser
    built-ins, not code of the repository; they are modelled after the
    WHATWG URL standard, section 5 ([application/x-www-form-urlencoded]):
    the parser splits on [&], cuts each sequence at its first [=],
    replaces [+] by a space and percent-decodes; the serializer keeps the
    bytes [*-._], digits and letters, writes a space as [+] and every
    other byte as [%XY] in upper-case hexadecimal.  Strings are Rocq
    strings, that is byte strings: the UTF-8 encoding and decoding steps
    of the standard are the identity on them (the replacement of invalid
    UTF-8 sequences is not modelled).  The main theorem is the round trip
    [parse_serialize]: parsing what [toString] wrote gives back the list of
    pairs. *)

From S2P Require Import Prelude.
From Stdlib Require Import Ascii.

(** ** Bytes *)

(** The upper-case hexadecimal digit of a value below 16: [0]-[9] are
    the codes 48-57, [A]-[F] the codes 65-70. *)
Definition hex_digit (n : nat) : ascii :=
  ascii_of_nat (if n <? 10 then 48 + n else 55 + n).

Definition hex_value (c : ascii) : option nat :=
  let n := nat_of_ascii c in
  if (48 <=? n) && (n <=? 57) then Some (n - 48)
  else if (65 <=? n) && (n <=? 70) then Some (n - 55)
  else if (97 <=? n) && (n <=? 102) then Some (n - 87)
  else None.

(** The bytes the urlencoded serializer leaves as they are. *)
Definition unreserved (c : ascii) : bool :=
  let n := nat_of_ascii c in
  (n =? 42) || (n =? 45) || (n =? 46) || (n =? 95) ||
  ((48 <=? n) && (n <=? 57)) || ((65 <=? n) && (n <=? 90)) || ((97 <=? n) && (n <=? 122)).

(** The urlencoded byte serializer, for one byte. *)
Definition serialize_byte (c : ascii) : string :=
  if unreserved c then String c EmptyString
  else if Ascii.eqb c " "%char then String "+"%char EmptyString
  else String "%"%char (String (hex_digit (nat_of_ascii c / 16))
                     (String (hex_digit (nat_of_ascii c mod 16)) EmptyString)).

Fixpoint serialize (s : string) : string :=
  match s with
  | EmptyString => EmptyString
  | String c rest => serialize_byte c ++ serialize rest
  end.

(** The parser's first rewriting: [+] becomes a space. *)
Fixpoint plus_to_space (s : string) : string :=
  match s with
  | EmptyString => EmptyString
  | String c rest => String (if Ascii.eqb c "+"%char then " "%char else c) (plus_to_space rest)
  end.

(** Percent-decoding: [%XY] with two hexadecimal digits is the byte
    [XY]; any other byte, a [%] not followed by two digits included, is
    kept. *)
Fixpoint percent_decode (s : string) : string :=
  match s with
  | EmptyString => EmptyString
  | String c rest =>
      if Ascii.eqb c "%"%char then
        match rest with
        | String h (String l rest') =>
            match hex_value h, hex_value l with
            | Some a, Some b => String (ascii_of_nat (16 * a + b)) (percent_decode rest')
            | _, _ => String c (percent_decode rest)
            end
        | _ => String c (percent_decode rest)
        end
      else String c (percent_decode rest)
  end.

(** ** Splitting and joining *)

Fixpoint split_on (sep : ascii) (s : string) : list string :=
  match s with
  | EmptyString => [EmptyString]
  | String c rest =>
      let parts := split_on sep rest in
      if Ascii.eqb c sep then EmptyString :: parts
      else match parts with
           | p :: ps => String c p :: ps
           | [] => [String c EmptyString]
           end
  end.

Fixpoint join (sep : ascii) (l : list string) : string :=
  match l with
  | [] => EmptyString
  | [x] => x
  | x :: rest => x ++ String sep (join sep rest)
  end.

(** The part before the first [sep] and, if there is one, the part after. *)
Fixpoint split_first (sep : ascii) (s : string) : string * option string :=
  match s with
  | EmptyString => (EmptyString, None)
  | String c rest =>
      if Ascii.eqb c sep then (EmptyString, Some rest)
      else let '(a, b) := split_first sep rest in (String c a, b)
  end.

(** ** The [URLSearchParams] object *)

(** Its list of name-value pairs, in order. *)
Abbreviation params := (list (string * string)).

(** One sequence of the query: name and value, decoded. *)
Definition parse_pair (seq : string) : string * string :=
  let '(n, v) := split_first "="%char seq in
  (percent_decode (plus_to_space n), percent_decode (plus_to_space (default EmptyString v))).

Definition strip_question (s : string) : string :=
  match s with
  | String c rest => if Ascii.eqb c "?"%char then rest else s
  | EmptyString => EmptyString
  end.

(** [new URLSearchParams(init)] for a string [init]: a leading [?] is
    dropped, and empty sequences are skipped. *)
Definition parse (init : string) : params :=
  parse_pair <$> filter (fun seq => negb (String.eqb seq EmptyString))
                   (split_on "&"%char (strip_question init)).

(** [params.toString()]. *)
Definition toString (ps : params) : string :=
  join "&"%char ((fun '(n, v) => (serialize n ++ String "="%char (serialize v))%string) <$> ps).

(** [params.get(name)]: the first value, or [null]. *)
Fixpoint get (ps : params) (name : string) : option string :=
  match ps with
  | [] => None
  | (n, v) :: rest => if String.eqb n name then Some v else get rest name
  end.

(** [params.getAll(name)]. *)
Definition getAll (ps : params) (name : string) : list string :=
  snd <$> filter (fun p => p.1 = name) ps.

(** [params.delete(name)]: every pair with that name is removed. *)
Definition delete_name (ps : params) (name : string) : params :=
  filter (fun p => p.1 <> name) ps.

(** [params.set(name, value)]: the first pair with that name gets the
    value and the others are removed; with none, the pair is appended. *)
Fixpoint set_first (ps : params) (name value : string) : params :=
  match ps with
  | [] => [(name, value)]
  | (n, v) :: rest =>
      if String.eqb n name then (n, value) :: delete_name rest name
      else (n, v) :: set_first rest name value
  end.

(** [get] is the first value [getAll] lists: the two readers of the
    page ([getParam] and the [phases] getter) agree. *)
Lemma get_as_getAll (ps : params) (name : string) : get ps name = head (getAll ps name).
Proof.
  induction ps as [|[n v] ps IH]; [done |]. unfold getAll in *. simpl.
  case_streq n name.
  - by rewrite filter_cons_True.
  - by rewrite filter_cons_False.
Qed.

(** ** The round trip *)

Fixpoint has_char (x : ascii) (s : string) : bool :=
  match s with
  | EmptyString => false
  | String c rest => Ascii.eqb c x || has_char x rest
  end.

(** Decoding undoes the serialization of one byte, whatever follows. *)
Lemma decode_serialize_byte (c : ascii) (rest : string) :
  percent_decode (plus_to_space (serialize_byte c ++ rest)) =
  String c (percent_decode (plus_to_space rest)).
Proof. destruct c as [[] [] [] [] [] [] [] []]; reflexivity. Qed.

Lemma decode_serialize (s : string) : percent_decode (plus_to_space (serialize s)) = s.
Proof.
  induction s as [|c s IH]; [done |]. simpl.
  by rewrite decode_serialize_byte, IH.
Qed.

Lemma has_char_app (x : ascii) (a b : string) :
  has_char x (a ++ b) = has_char x a || has_char x b.
Proof. induction a as [|c a IH]; simpl; [done |]. by rewrite IH, orb_assoc. Qed.

(** The serializer never writes [&] or [=] (nor [?] or [#]). *)
Lemma serialize_byte_reserved (c : ascii) :
  has_char "&"%char (serialize_byte c) = false /\ has_char "="%char (serialize_byte c) = false.
Proof. destruct c as [[] [] [] [] [] [] [] []]; split; reflexivity. Qed.

Lemma serialize_no_amp (s : string) : has_char "&"%char (serialize s) = false.
Proof.
  induction s as [|c s IH]; [done |]. simpl.
  by rewrite has_char_app, IH, (proj1 (serialize_byte_reserved c)).
Qed.

Lemma serialize_no_eq (s : string) : has_char "="%char (serialize s) = false.
Proof.
  induction s as [|c s IH]; [done |]. simpl.
  by rewrite has_char_app, IH, (proj2 (serialize_byte_reserved c)).
Qed.

Lemma split_first_none (sep : ascii) (s : string) :
  has_char sep s = false -> split_first sep s = (s, None).
Proof.
  induction s as [|c s IH]; simpl; [done |]. intros [Hc Hs]%orb_false_iff.
  rewrite Hc, IH by done. done.
Qed.

Lemma has_char_cons (x c : ascii) (s : string) :
  has_char x (String c s) = Ascii.eqb c x || has_char x s.
Proof. done. Qed.

Lemma has_char_join (x sep : ascii) (l : list string) :
  x <> sep -> Forall (fun s => has_char x s = false) l -> has_char x (join sep l) = false.
Proof.
  intros Hx. induction 1 as [|s l Hs Hl IH]; [done |]. destruct l as [|s' l]; [done |].
  change (join sep (s :: s' :: l)) with (s ++ String sep (join sep (s' :: l)))%string.
  rewrite has_char_app, Hs, has_char_cons, IH, orb_false_r. simpl.
  destruct (Ascii.eqb sep x) eqn:E; [apply Ascii.eqb_eq in E; congruence | done].
Qed.

Lemma split_first_app (sep : ascii) (a b : string) :
  has_char sep a = false -> split_first sep (a ++ String sep b) = (a, Some b).
Proof.
  induction a as [|c a IH]; simpl; [by rewrite Ascii.eqb_refl |].
  intros [Hc Ha]%orb_false_iff. rewrite Hc, IH by done. done.
Qed.

Lemma split_on_no_sep (sep : ascii) (a : string) :
  has_char sep a = false -> split_on sep a = [a].
Proof.
  induction a as [|c a IH]; simpl; [done |].
  intros [Hc Ha]%orb_false_iff. by rewrite Hc, IH.
Qed.

Lemma split_on_app (sep : ascii) (a b : string) :
  has_char sep a = false -> split_on sep (a ++ String sep b) = a :: split_on sep b.
Proof.
  induction a as [|c a IH]; simpl; [by rewrite Ascii.eqb_refl |].
  intros [Hc Ha]%orb_false_iff. by rewrite Hc, IH.
Qed.

Lemma split_on_join (sep : ascii) (l : list string) :
  l <> [] -> Forall (fun x => has_char sep x = false) l -> split_on sep (join sep l) = l.
Proof.
  induction l as [|x [|y l] IH]; intros Hne Hl; [done | |];
    apply Forall_cons in Hl as [Hx Hl].
  - by apply split_on_no_sep.
  - change (join sep (x :: y :: l)) with (x ++ String sep (join sep (y :: l)))%string.
    rewrite split_on_app by done. f_equal. by apply IH.
Qed.

Definition serialize_pair (p : string * string) : string :=
  let '(n, v) := p in (serialize n ++ String "="%char (serialize v))%string.

Lemma parse_pair_serialize (p : string * string) : parse_pair (serialize_pair p) = p.
Proof.
  destruct p as [n v]. unfold parse_pair, serialize_pair.
  rewrite split_first_app by apply serialize_no_eq. simpl.
  by rewrite !decode_serialize.
Qed.

Lemma serialize_pair_nonempty (p : string * string) : String.eqb (serialize_pair p) EmptyString = false.
Proof. destruct p as [n v]. simpl. by destruct (serialize n). Qed.

Lemma parse_pairs (l : params) :
  parse_pair <$> filter (fun seq => negb (String.eqb seq EmptyString)) (serialize_pair <$> l) = l.
Proof.
  induction l as [|p l IH]; [done |]. rewrite fmap_cons.
  rewrite filter_cons_True by (by rewrite serialize_pair_nonempty).
  by rewrite fmap_cons, parse_pair_serialize, IH.
Qed.

(** The round trip: the query [?] followed by what [toString] wrote
    parses back to the same list of pairs -- names and values with any
    bytes, repeated names and empty strings included. *)
Theorem parse_serialize (ps : params) : parse (String "?"%char (toString ps)) = ps.
Proof.
  unfold parse, toString. simpl.
  replace ((fun '(n, v) => (serialize n ++ String "="%char (serialize v))%string) <$> ps)
    with (serialize_pair <$> ps) by (by apply list_fmap_ext; intros ? []).
  destruct ps as [|p ps]; [done |].
  rewrite split_on_join; [apply parse_pairs | done |].
  apply Forall_fmap, Forall_forall. intros [n v] _. simpl.
  by rewrite has_char_app, serialize_no_amp; simpl; rewrite serialize_no_amp.
Qed.

(** ** Reading what was written *)

Lemma get_delete_eq (ps : params) (name : string) : get (delete_name ps name) name = None.
Proof.
  induction ps as [|[n v] ps IH]; [done |]. unfold delete_name in *.
  rewrite filter_cons. case_decide as Hn; simpl in Hn; [| by subst].
  simpl. case_streq n name; [done | exact IH].
Qed.

Lemma get_delete_ne (ps : params) (name name' : string) :
  name <> name' -> get (delete_name ps name) name' = get ps name'.
Proof.
  intros Hne. induction ps as [|[n v] ps IH]; [done |]. unfold delete_name in *.
  rewrite filter_cons. case_decide as Hn; simpl in Hn; simpl.
  - case_streq n name'; [done | exact IH].
  - subst. by rewrite (proj2 (String.eqb_neq _ _) Hne).
Qed.

Lemma get_set_eq (ps : params) (name value : string) : get (set_first ps name value) name = Some value.
Proof.
  induction ps as [|[n v] ps IH]; simpl; [by rewrite String.eqb_refl |].
  case_streq n name; simpl; [by subst; rewrite String.eqb_refl |].
  by rewrite (proj2 (String.eqb_neq _ _) E).
Qed.

Lemma get_set_ne (ps : params) (name name' value : string) :
  name <> name' -> get (set_first ps name value) name' = get ps name'.
Proof.
  intros Hne. induction ps as [|[n v] ps IH]; simpl.
  - by rewrite (proj2 (String.eqb_neq _ _) Hne).
  - case_streq n name; simpl; [subst | by rewrite IH].
    rewrite (proj2 (String.eqb_neq _ _) Hne). by apply get_delete_ne.
Qed.

(** After [delete], no value is left; after [set], exactly one. *)
Lemma getAll_delete_eq (ps : params) (name : string) : getAll (delete_name ps name) name = [].
Proof.
  unfold getAll, delete_name. rewrite list_filter_filter.
  rewrite (list_filter_iff _ (fun _ => False)); [| naive_solver].
  induction ps as [|p ps IH]; [done |]. rewrite filter_cons_False; [exact IH | intros []].
Qed.

Lemma getAll_set_eq (ps : params) (name value : string) :
  getAll (set_first ps name value) name = [value].
Proof.
  induction ps as [|[n v] ps IH]; simpl; [unfold getAll; by rewrite filter_cons_True |].
  case_streq n name; unfold getAll in *.
  - subst. rewrite filter_cons_True by done. simpl. f_equal. apply getAll_delete_eq.
  - by rewrite filter_cons_False.
Qed.

Lemma getAll_delete_ne (ps : params) (n name : string) :
  n <> name -> getAll (delete_name ps n) name = getAll ps name.
Proof.
  intros Hn. unfold getAll, delete_name. rewrite list_filter_filter.
  f_equal. apply list_filter_iff. naive_solver.
Qed.

Lemma getAll_set_ne (ps : params) (n name value : string) :
  n <> name -> getAll (set_first ps n value) name = getAll ps name.
Proof.
  intros Hn. induction ps as [|[n' v] ps IH]; simpl.
  - unfold getAll. by rewrite filter_cons_False.
  - case_streq n' n; unfold getAll in *.
    + subst. rewrite !filter_cons_False by done. by apply getAll_delete_ne.
    + destruct (decide (n' = name)).
      * rewrite !filter_cons_True by done. simpl. by f_equal.
      * by rewrite !filter_cons_False.
Qed.

(** ** The [location.search] of a query *)

(** The search part of a location whose query is [ps]: the [history]
    package's [parsePath] turns a bare [?] into the empty string. *)
Definition search_of (ps : params) : string :=
  let q := toString ps in if q === "" then EmptyString else String "?"%char q.

Lemma parse_search_of (ps : params) : parse (search_of ps) = ps.
Proof.
  unfold search_of. case_streq (toString ps) ""%string; [| apply parse_serialize].
  rewrite <- (parse_serialize ps). by match goal with H : toString ps = _ |- _ => rewrite H end.
Qed.

