(* ===== verification/Details.v ===== *)
(** * The workflow history and archived workflow detail pages

    [workflow-history-details.tsx] ([WorkflowHistoryDetails]) and
    [archived-workflow-details.tsx] ([ArchivedWorkflowDetails]) render one
    workflow loaded by namespace and uid.  Their state lives in the URL
    query: getters read [tab], [nodeId], [container] and [sidePanel] with
    JavaScript defaults ([x || 'workflow']), setters write them back with
    [setParams], which edits the current [URLSearchParams] and pushes
    [match.url + '?' + params.toString()].  The archived page inherits
    [queryParam] and [setQueryParams] from [BasePage], which is not among
    the sources; it is modelled by the history page's [getParam] and
    [setParams], which have the same contract.

    The rendered JSX is modelled as a typed view: [detailsView] builds,
    from the route and the loaded workflow, the toolbar (action menu,
    breadcrumbs, the three tab buttons with their [classNames]), the class
    of the content, and -- once the [DataLoader] has the workflow -- the
    main panel (summary, or the DAG or timeline with the step-info panel)
    and the sliding panel.  Event handlers are values of [Handler]: a
    call of [setParams] with its argument, or one of the actions of
    [Actions.v].  [dispatch] runs a [setParams] handler on the route, so
    that the theorems can follow a click to the next rendering. *)

From S2P Require Import Prelude Model UrlSearchParams.
From Stdlib Require Import Ascii.

(** ** The route *)

(** What the pages read from the router: [match.params.namespace],
    [match.params.uid], [match.url] and [location.search]. *)
Record Route := mkRoute {
  match_namespace : string;
  match_uid : string;
  match_url : string;
  search : string
}.

(** JavaScript's [v || d] on a string that may be [null]. *)
Definition js_or (v : option string) (d : string) : string :=
  match v with
  | Some s => if String.eqb s "" then d else s
  | None => d
  end.

(** JavaScript's [!!v] on a string that may be [null]. *)
Definition truthy (v : option string) : bool :=
  match v with
  | Some s => negb (String.eqb s "")
  | None => false
  end.

(** [classNames(...base, {cls: cond, ...})] of the [classnames] package:
    the base classes, then the keys whose condition holds, joined by a
    space; empty strings are dropped. *)
Definition classNames (base : list string) (conds : list (string * bool)) : string :=
  String.concat " " (filter (fun c => c <> ""%string) (base ++ (fst <$> filter (fun p => p.2 = true) conds))).

(** ** Reading and writing the query *)

(** [getParam(name)], lines 188-190 of the history page. *)
Definition getParam (r : Route) (name : string) : option string :=
  get (parse (search r)) name.

(** [setParams(newParams)], lines 193-204: the URL it pushes.  The
    object's keys are taken in order; a [null] value deletes the
    parameter, any other value sets it. *)
Definition setParams (r : Route) (newParams : list (string * option string)) : string :=
  let params :=
    foldl (fun params '(name, value) =>
             match value with
             | Some v => set_first params name v
             | None => delete_name params name
             end) (parse (search r)) newParams in
  (match_url r ++ String "?"%char (toString params))%string.

(** [history.push(url)] with [url] a path of this route followed by a
    query: the route stays, [location.search] becomes the query, a bare
    [?] giving the empty search as the [history] package's [parsePath]
    does. *)
Definition push (r : Route) (url : string) : Route :=
  mkRoute (match_namespace r) (match_uid r) (match_url r)
    (match split_first "?"%char url with
     | (_, Some q) => if String.eqb q "" then EmptyString else String "?"%char q
     | (_, None) => EmptyString
     end).

(** The getters and setters, lines 29-63 of the history page (lines
    23-57 of the archived page). *)
Definition namespace_ (r : Route) : string := match_namespace r.
Definition uid_ (r : Route) : string := match_uid r.
Definition tab (r : Route) : string := js_or (getParam r "tab") "workflow".
Definition setTab (r : Route) (t : string) : string := setParams r [("tab", Some t)].
Definition nodeId (r : Route) : option string := getParam r "nodeId".
Definition setNodeId (r : Route) (n : option string) : string := setParams r [("nodeId", n)].
Definition container (r : Route) : string := js_or (getParam r "container") "main".
Definition sidePanel (r : Route) : option string := getParam r "sidePanel".
Definition setSidePanel (r : Route) (p : option string) : string :=
  setParams r [("sidePanel", p)].

(** [node(wf)], lines 206-208 (archived: 165-167): [this.nodeId && wf.status.nodes[this.nodeId]];
    a falsy [nodeId] and a missing node both give a falsy value, [None]. *)
Definition node (r : Route) (wf : Workflow) : option NodeStatus :=
  if truthy (nodeId r) then nodes (status wf) !! default "" (nodeId r) else None.

(** ** The rendered view *)

(** The two pages. *)
Variant Kind := History | Archived.

#[export] Instance Kind_eq_dec : EqDecision Kind.
Proof. solve_decision. Defined.

(** An event handler: a [setParams] call (the setters included), or the
    page's resubmit or delete action. *)
Inductive Handler :=
  | SetParams (newParams : list (string * option string))
  | ResubmitAction
  | DeleteAction.

Record MenuItem := mkMenuItem { item_title : string; item_icon : string; item_action : Handler }.
Record Crumb := mkCrumb { crumb_title : string; crumb_path : option string }.
Record TabButton := mkTabButton { button_class : string; button_icon : string; button_onClick : Handler }.

Variant Graph := WorkflowDag | WorkflowTimeline.

(** [WorkflowNodeInfo] and its props. *)
Record StepInfo := mkStepInfo {
  info_node : option NodeStatus;
  info_workflow : Workflow;
  info_onShowYaml : string -> Handler;
  info_onShowContainerLogs : string -> string -> Handler;
  info_close : Handler;
  info_archived : bool;
  info_artifactsMessage : option string   (* the history page's note *)
}.

Inductive MainPanel :=
  | SummaryPanel (workflow : Workflow) (parameters : option (list WfParameter))
      (artifactsArchived : bool)
  | GraphPanel (graph : Graph) (workflow : Workflow) (selectedNodeId : option string)
      (nodeClicked : NodeStatus -> Handler) (stepInfo : option StepInfo).

Inductive PanelContent :=
  | YamlViewer (workflow : Workflow) (selectedNode : option NodeStatus)
  | LogsViewer (workflow : Workflow) (nodeId : option string) (container : string)
      (archived : bool) (message : option string).

(** What the [DataLoader]'s child renders once the workflow is loaded. *)
Record Loaded := mkLoaded {
  main : MainPanel;
  panelShown : bool;
  panelOnClose : Handler;
  panel : list PanelContent
}.

Record DetailsView := mkDetailsView {
  title : string;
  actionMenu : list MenuItem;
  breadcrumbs : list Crumb;
  tools : list TabButton;
  contentClass : string;
  load : Kind * string * string;       (* the service and its (namespace, uid) *)
  body : option Loaded                 (* None while the DataLoader loads *)
}.

(** [wf.spec.arguments && wf.spec.arguments.parameters]: the parameters
    panel is shown when both are present (an empty array is truthy). *)
Definition shownParameters (wf : Workflow) : option (list WfParameter) :=
  match arguments (spec wf) with
  | Some a => parameters a
  | None => None
  end.

Definition archived (k : Kind) : bool := match k with History => false | Archived => true end.

(** The notes the history page adds under the step information (lines
    153-158) and the logs (lines 171-176), after a warning icon; the
    archived page passes [archived={true}] instead. *)
Definition artifactsMessage (k : Kind) : option string :=
  match k with
  | History => Some "Artifacts for historical workflows maybe be overwritten by a more recent workflow with the same name."%string
  | Archived => None
  end.
Definition logsMessage (k : Kind) : option string :=
  match k with
  | History => Some "Logs for historical workflows maybe overwritten by more recent workflow with the same name."%string
  | Archived => None
  end.

Section render.
(** [uiUrl] of [shared/base] (not among the sources): the application's
  base path prepended to a page path. *)
Context (uiUrl : string -> string).

(** [render()]: lines 65-186 of the history page, lines 59-163 of the
  archived page, which differ only where [k] is matched. *)
Definition detailsView (k : Kind) (r : Route) (loaded : option Workflow) : DetailsView :=
mkDetailsView
  "Workflow History Details"
  [mkMenuItem "Resubmit" "fa fa-redo" ResubmitAction;
   mkMenuItem "Delete" "fa fa-trash" DeleteAction]
  [match k with
   | History => mkCrumb "Workflow History" (Some (uiUrl "workflow-history"))
   | Archived => mkCrumb "Archived Workflows" (Some (uiUrl "archived-workflows"))
   end;
   mkCrumb (namespace_ r ++ "/" ++ uid_ r) None]
  [mkTabButton (classNames [] [("actve", (tab r === "summary"))]) "fa fa-columns"
     (SetParams [("tab", Some "summary")]);
   mkTabButton (classNames [] [("active", (tab r === "timeline"))]) "fa argo-icon-timeline"
     (SetParams [("tab", Some "timeline")]);
   mkTabButton (classNames [] [("active", (tab r === "workflow"))]) "fa argo-icon-workflow"
     (SetParams [("tab", Some "workflow")])]
  (classNames ["workflow-details"]
     [("workflow-details--step-node-expanded", truthy (nodeId r))])
  (k, namespace_ r, uid_ r)
  (match loaded with
   | None => None
   | Some wf =>
       Some (mkLoaded
         (if tab r === "summary" then SummaryPanel wf (shownParameters wf) (archived k)
          else GraphPanel (if tab r === "workflow" then WorkflowDag else WorkflowTimeline)
                 wf (nodeId r)
                 (fun n => SetParams [("nodeId", Some (node_id n))])
                 (if truthy (nodeId r) then
                    Some (mkStepInfo (node r wf) wf
                            (fun n => SetParams [("sidePanel", Some "yaml"); ("nodeId", Some n)])
                            (fun n c => SetParams [("sidePanel", Some "logs"); ("nodeId", Some n);
                                                   ("container", Some c)])
                            (SetParams [("nodeId", None)])
                            (archived k) (artifactsMessage k))
                  else None))
         (truthy (sidePanel r))
         (SetParams [("sidePanel", None)])
         ((if bool_decide (sidePanel r = Some "yaml"%string)
           then [YamlViewer wf (node r wf)] else []) ++
          (if bool_decide (sidePanel r = Some "logs"%string)
           then [LogsViewer wf (nodeId r) (container r) (archived k) (logsMessage k)] else [])))
   end).
End render.

(** The archived page's [render()], lines 59-163. *)
Definition archivedDetailsView (uiUrl : string -> string) : Route -> option Workflow -> DetailsView :=
  detailsView uiUrl Archived.

(** What a [SetParams] handler does: push the URL [setParams] builds. *)
Definition dispatch (r : Route) (h : Handler) : Route :=
  match h with
  | SetParams ps => push r (setParams r ps)
  | _ => r
  end.

(** ** Reading back what [setParams] wrote *)

(** The value a key of the [setParams] argument carries. *)
Fixpoint assoc {A} (name : string) (l : list (string * A)) : option A :=
  match l with
  | [] => None
  | (n, v) :: rest => if String.eqb n name then Some v else assoc name rest
  end.

Definition apply_param (ps : params) (p : string * option string) : params :=
  let '(name, value) := p in
  match value with
  | Some v => set_first ps name v
  | None => delete_name ps name
  end.

Lemma assoc_None {A} (name : string) (l : list (string * A)) :
  name ∉ l.*1 -> assoc name l = None.
Proof.
  induction l as [|[n v] l IH]; simpl; [done |]. intros Hn.
  case_streq n name; [set_solver | apply IH; set_solver].
Qed.

Lemma get_apply_param_eq (ps : params) (name : string) (v : option string) :
  get (apply_param ps (name, v)) name = v.
Proof. destruct v; simpl; [apply get_set_eq | apply get_delete_eq]. Qed.

Lemma get_apply_param_ne (ps : params) (n name : string) (v : option string) :
  n <> name -> get (apply_param ps (n, v)) name = get ps name.
Proof. destruct v; simpl; [apply get_set_ne | apply get_delete_ne]. Qed.

Lemma get_foldl_params (ps : params) (newParams : list (string * option string)) (name : string) :
  NoDup newParams.*1 ->
  get (foldl apply_param ps newParams) name =
    match assoc name newParams with Some v => v | None => get ps name end.
Proof.
  revert ps. induction newParams as [|[n v] rest IH]; intros ps Hnd; [done |].
  apply NoDup_cons in Hnd as [Hn Hnd]. simpl. rewrite IH by done.
  case_streq n name.
  - subst. rewrite assoc_None by done. apply get_apply_param_eq.
  - destruct (assoc name rest); [done |]. by apply get_apply_param_ne.
Qed.

(** The query the pushed route holds parses back to the parameters
    [setParams] wrote. *)
Lemma parse_push_setParams (r : Route) (newParams : list (string * option string)) :
  has_char "?"%char (match_url r) = false ->
  parse (search (push r (setParams r newParams))) = foldl apply_param (parse (search r)) newParams.
Proof.
  intros Hurl. unfold push, setParams. simpl. rewrite split_first_app by done.
  change (foldl _ (parse (search r)) newParams) with (foldl apply_param (parse (search r)) newParams).
  apply (parse_search_of (foldl apply_param (parse (search r)) newParams)).
Qed.

Lemma getParam_dispatch (r : Route) (newParams : list (string * option string)) (name : string) :
  has_char "?"%char (match_url r) = false -> NoDup newParams.*1 ->
  getParam (dispatch r (SetParams newParams)) name =
    match assoc name newParams with Some v => v | None => getParam r name end.
Proof.
  intros Hurl Hnd. unfold getParam, dispatch.
  rewrite parse_push_setParams by done.
  by apply get_foldl_params.
Qed.

(** C11: after a [setParams] call the page reads back, for each key of
    the argument, the value it was given ([null] reads as absent), and
    for every other key the value it had -- names and values with any
    bytes, as the query is encoded and decoded on the way. *)
Theorem getParam_after_setParams (r : Route) (newParams : list (string * option string))
    (name : string) :
  has_char "?"%char (match_url r) = false -> NoDup newParams.*1 ->
  getParam (dispatch r (SetParams newParams)) name =
    match assoc name newParams with Some v => v | None => getParam r name end.
Proof. apply getParam_dispatch. Qed.

(** C30: a setter leaves exactly one copy of its parameter in the URL,
    whatever copies the query held before ([params.set] replaces the
    first and removes the others), and a [null] value leaves none, so
    that [getParam] and [getAll] then agree on it. *)
Theorem setParams_single_value (r : Route) (name v : string) :
  has_char "?"%char (match_url r) = false ->
  getAll (parse (search (dispatch r (SetParams [(name, Some v)])))) name = [v] /\
  getAll (parse (search (dispatch r (SetParams [(name, None)])))) name = [].
Proof.
  intros Hurl. unfold dispatch. rewrite !parse_push_setParams by done.
  split; [apply getAll_set_eq | apply getAll_delete_eq].
Qed.

(** ** Following a click to the next rendering *)

(** Which main panel a rendering shows. *)
Definition shownTab (v : DetailsView) : option string :=
  match body v with
  | Some l =>
      match main l with
      | SummaryPanel _ _ _ => Some "summary"%string
      | GraphPanel WorkflowDag _ _ _ _ => Some "workflow"%string
      | GraphPanel WorkflowTimeline _ _ _ _ => Some "timeline"%string
      end
  | None => None
  end.

Lemma classNames_one (c : string) (b : bool) :
  c <> ""%string -> classNames [] [(c, b)] = if b then c else ""%string.
Proof.
  intros Hc. unfold classNames. destruct b; simpl; [| done].
  rewrite filter_cons_True by done. done.
Qed.

(** The tab the route selects after a click on a tab button. *)
Lemma tab_dispatch (r : Route) (t : string) :
  has_char "?"%char (match_url r) = false ->
  tab (dispatch r (SetParams [("tab", Some t)])) = js_or (Some t) "workflow".
Proof.
  intros Hurl. unfold tab. rewrite getParam_dispatch by (done || concrete).
  simpl. by rewrite ?String.eqb_refl.
Qed.

(** C18: a click on a tab button shows that tab: the next rendering's
    main panel is the summary, the timeline or the DAG, as the button
    says; and the clicked button is then marked -- with the class [actve]
    for the summary button, [active] for the two others, so the summary
    button never appears active. *)
Theorem click_tab_button (uiUrl : string -> string) (k : Kind) (r : Route) (wf : Workflow)
    (i : nat) (b : TabButton) :
  has_char "?"%char (match_url r) = false ->
  tools (detailsView uiUrl k r (Some wf)) !! i = Some b ->
  shownTab (detailsView uiUrl k (dispatch r (button_onClick b)) (Some wf)) =
    ["summary"; "timeline"; "workflow"]%string !! i /\
  button_class <$> tools (detailsView uiUrl k (dispatch r (button_onClick b)) (Some wf)) !! i =
    Some (if decide (i = 0) then "actve" else "active")%string.
Proof.
  intros Hurl Hb.
  destruct i as [|[|[|i]]]; simpl in Hb; try done; injection Hb as <-;
    unfold detailsView; cbn [button_onClick]; rewrite tab_dispatch by done;
    simpl; rewrite ?classNames_one by done; done.
Qed.

Lemma getParam_push (r : Route) (newParams : list (string * option string)) (name : string) :
  has_char "?"%char (match_url r) = false -> NoDup newParams.*1 ->
  getParam (push r (setParams r newParams)) name =
    match assoc name newParams with Some v => v | None => getParam r name end.
Proof. apply getParam_dispatch. Qed.

(** Unfold the query getters and read them after a [setParams]. *)
Ltac read_params :=
  unfold tab, nodeId, container, sidePanel;
  rewrite ?getParam_dispatch, ?getParam_push by (done || concrete); simpl.

(** The step-info panel of a rendering is the one [detailsView] builds. *)
Lemma stepInfo_of_view (uiUrl : string -> string) (k : Kind) (r : Route) (wf : Workflow)
    (l : Loaded) (g : Graph) (sel : option string) (nc : NodeStatus -> Handler) (si : StepInfo) :
  body (detailsView uiUrl k r (Some wf)) = Some l -> main l = GraphPanel g wf sel nc (Some si) ->
  truthy (nodeId r) = true /\
  info_onShowYaml si = (fun n => SetParams [("sidePanel", Some "yaml"); ("nodeId", Some n)])%string /\
  info_onShowContainerLogs si =
    (fun n c => SetParams [("sidePanel", Some "logs"); ("nodeId", Some n); ("container", Some c)])%string /\
  info_close si = SetParams [("nodeId", None)]%string.
Proof.
  intros Hb Hm. simpl in Hb. injection Hb as <-. simpl in Hm.
  destruct (tab r === "summary"); [done |].
  destruct (truthy (nodeId r)); [| by injection Hm].
  injection Hm as _ _ _ <-. done.
Qed.

(** C19: "show container logs" in the step-info panel opens the sliding
    panel with exactly the logs viewer of that node and container (the
    container [main] when the name is empty). *)
Theorem show_logs_opens_panel (uiUrl : string -> string) (k : Kind) (r : Route) (wf : Workflow)
    (l : Loaded) (g : Graph) (sel : option string) (nc : NodeStatus -> Handler) (si : StepInfo)
    (n c : string) :
  has_char "?"%char (match_url r) = false ->
  body (detailsView uiUrl k r (Some wf)) = Some l -> main l = GraphPanel g wf sel nc (Some si) ->
  exists l', body (detailsView uiUrl k (dispatch r (info_onShowContainerLogs si n c)) (Some wf)) = Some l' /\
    panelShown l' = true /\
    panel l' = [LogsViewer wf (Some n) (js_or (Some c) "main") (archived k) (logsMessage k)].
Proof.
  intros Hurl Hb Hm. destruct (stepInfo_of_view uiUrl k r wf l g sel nc si Hb Hm) as (_ & _ & -> & _).
  eexists. split; [reflexivity |]. simpl. read_params. done.
Qed.

(** ** The shape of the sliding panel *)

(** C29: once the workflow is loaded, the sliding panel of either page
    holds at most one viewer; it is open exactly when the [sidePanel]
    parameter is truthy, and it is empty exactly when that parameter is
    neither [yaml] nor [logs] -- so any other value, such as one left in
    a bookmarked URL, opens an empty panel. *)
Theorem sliding_panel_shape (uiUrl : string -> string) (k : Kind) (r : Route) (wf : Workflow)
    (l : Loaded) :
  body (detailsView uiUrl k r (Some wf)) = Some l ->
  length (panel l) <= 1 /\ panelShown l = truthy (sidePanel r) /\
  (panel l = [] <-> sidePanel r <> Some "yaml"%string /\ sidePanel r <> Some "logs"%string).
Proof.
  intros Hb. simpl in Hb. injection Hb as <-. simpl.
  split; [| split; [done |]]; repeat case_bool_decide; simpl; try naive_solver lia.
Qed.

(** ** The theorems on a concrete page *)

Module DetailsInstances.
Definition uiUrl0 (path : string) : string := ("/" ++ path)%string.
Definition wf0 : Workflow :=
  mkWorkflow (mkObjectMeta "hello" "argo" "u1" "7") (mkWorkflowSpec None)
    (mkWorkflowStatus "Succeeded" {["n1" := mkNodeStatus "n1" "hello" "Succeeded"]}).
Definition r0 : Route := mkRoute "argo" "u1" "/workflow-history/argo/u1" "?tab=summary&nodeId=n1".
Definition r1 : Route := mkRoute "argo" "u1" "/workflow-history/argo/u1" "?nodeId=n1".
Definition v1 : DetailsView := detailsView uiUrl0 History r1 (Some wf0).
Definition l1 : Loaded :=
  match body v1 with
  | Some l => l
  | None => mkLoaded (SummaryPanel wf0 None false) false (SetParams []) []
  end.
Definition nc1 : NodeStatus -> Handler :=
  match main l1 with GraphPanel _ _ _ nc _ => nc | _ => fun _ => SetParams [] end.
Definition si1 : StepInfo :=
  match main l1 with
  | GraphPanel _ _ _ _ (Some si) => si
  | _ => mkStepInfo None wf0 (fun _ => SetParams []) (fun _ _ => SetParams []) (SetParams []) false None
  end.
End DetailsInstances.
Import DetailsInstances.

Lemma getParam_after_setParams_witness :
  getParam (dispatch r0 (SetParams [("sidePanel", Some "yaml"); ("nodeId", None)]%string)) "nodeId" = None.
Proof. rewrite getParam_after_setParams; concrete. Defined.

Lemma click_tab_button_witness :
  shownTab (detailsView uiUrl0 History (dispatch r0 (SetParams [("tab", Some "timeline")]%string)) (Some wf0))
    = Some "timeline"%string /\
  button_class <$> tools (detailsView uiUrl0 History
                            (dispatch r0 (SetParams [("tab", Some "timeline")]%string)) (Some wf0)) !! 1
    = Some "active"%string.
Proof.
  apply (click_tab_button uiUrl0 History r0 wf0 1
           (mkTabButton "" "fa argo-icon-timeline" (SetParams [("tab", Some "timeline")]%string)));
    concrete.
Defined.

Lemma show_logs_opens_panel_witness :
  exists l', body (detailsView uiUrl0 History (dispatch r1 (info_onShowContainerLogs si1 "n1" "wait"))
                (Some wf0)) = Some l' /\
    panelShown l' = true /\ panel l' = [LogsViewer wf0 (Some "n1") "wait" false (logsMessage History)]%string.
Proof. apply (show_logs_opens_panel uiUrl0 History r1 wf0 l1 WorkflowDag (Some "n1"%string) nc1); concrete. Defined.

Definition r_unknown_panel : Route :=
  mkRoute "argo" "u1" "/workflow-history/argo/u1" "?sidePanel=graph".
Definition l_unknown_panel : Loaded :=
  match body (detailsView uiUrl0 History r_unknown_panel (Some wf0)) with
  | Some l => l
  | None => mkLoaded (SummaryPanel wf0 None false) false (SetParams []) []
  end.

Lemma sliding_panel_shape_witness :
  length (panel l_unknown_panel) <= 1 /\
  panelShown l_unknown_panel = truthy (sidePanel r_unknown_panel) /\
  (panel l_unknown_panel = [] <->
     sidePanel r_unknown_panel <> Some "yaml"%string /\ sidePanel r_unknown_panel <> Some "logs"%string).
Proof. apply (sliding_panel_shape uiUrl0 History r_unknown_panel wf0). concrete. Defined.

Definition r_twice : Route :=
  mkRoute "argo" "u1" "/workflow-history/argo/u1" "?tab=timeline&tab=summary".

Lemma setParams_single_value_witness :
  getAll (parse (search (dispatch r_twice (SetParams [("tab", Some "workflow")])))) "tab" = ["workflow"] /\
  getAll (parse (search (dispatch r_twice (SetParams [("tab", None)])))) "tab" = [].
Proof. apply setParams_single_value. concrete. Defined.

