(* ===== verification/Actions.v ===== *)
(** * The resubmit and delete actions of the detail pages

    [resubmitWorkflowHistory] and [deleteWorkflowHistory] (history page,
    lines 210-242) and [resubmitArchivedWorkflow] and
    [deleteArchivedWorkflow] (archived page, lines 169-201) ask
    [confirm(...)], call the service, and chain
    [.catch(e => notifications.show(...)).then(...)]: the [then] callback
    runs after a failure too, with [undefined].  An action is modelled as
    the list of its effects in order, given the user's answer to
    [confirm] and how the service's promise settles.  A property read on
    [undefined] throws a [TypeError], which rejects the promise that
    [then] returns; nothing handles it, so it ends as an unhandled
    rejection. *)

From S2P Require Import Prelude Model UrlSearchParams Details.
From Stdlib Require Import Ascii.

Variant NotificationType := NotificationSuccess | NotificationError.

Inductive Effect :=
  | Confirm (message : string)                               (* window.confirm *)
  | Resubmit (k : Kind) (namespace uid : string)             (* service.resubmit *)
  | Delete (k : Kind) (namespace uid : string)               (* service.delete *)
  | Notify (content : string) (type : NotificationType)      (* notifications.show *)
  | SetLocation (href : string)                              (* document.location.href = *)
  | UnhandledRejection (error : string).                     (* an exception in a callback *)

#[export] Instance NotificationType_eq_dec : EqDecision NotificationType.
Proof. solve_decision. Defined.
#[export] Instance Effect_eq_dec : EqDecision Effect.
Proof. solve_decision. Defined.

(** How a promise settles: with a value, or with a rejection whose
    string conversion is given. *)
Inductive Settled (A : Type) := Fulfilled (v : A) | Rejected (reason : string).
Arguments Fulfilled {A} v.
Arguments Rejected {A} reason.

(** [p.catch(onRejected).then(onFulfilled)]: after a rejection, the
    catch handler returns [undefined], which the [then] callback
    receives ([None]). *)
Definition catch_then {A} (p : Settled A) (onRejected : string -> list Effect)
    (onFulfilled : option A -> list Effect) : list Effect :=
  match p with
  | Fulfilled v => onFulfilled (Some v)
  | Rejected e => onRejected e ++ onFulfilled None
  end.

(** The page's name for its object, in messages. *)
Definition what (k : Kind) : string :=
  match k with History => "workflow history" | Archived => "archived workflow" end.

(** [resubmitWorkflowHistory()] (history, lines 210-225) and
    [resubmitArchivedWorkflow()] (archived, lines 169-184). *)
Definition resubmit (k : Kind) (r : Route) (confirmed : bool) (result : Settled Workflow)
    : list Effect :=
  Confirm ("Are you sure you want to re-submit this " ++ what k ++ "?") ::
  if negb confirmed then []
  else Resubmit k (namespace_ r) (uid_ r) ::
       catch_then result
         (fun e => [Notify ((match k with
                             | History => "Failed to resubmit workflow history "
                             | Archived => "Failed to resubmit workflow "
                             end) ++ e) NotificationError])
         (fun wf =>
            match wf with
            | Some wf => [SetLocation ("/workflows/" ++ namespace (metadata wf) ++ "/" ++
                                       name (metadata wf))]
            | None => [UnhandledRejection "TypeError: cannot read property 'metadata' of undefined"]
            end).

(** [deleteWorkflowHistory()] (history, lines 227-242) and
    [deleteArchivedWorkflow()] (archived, lines 186-201). *)
Definition delete (k : Kind) (r : Route) (confirmed : bool) (result : Settled unit) : list Effect :=
  Confirm ("Are you sure you want to delete this " ++ what k ++ "?" ++ String "010"%char "There is no undo.") ::
  if negb confirmed then []
  else Delete k (namespace_ r) (uid_ r) ::
       catch_then result
         (fun e => [Notify ("Failed to delete " ++ what k ++ " " ++ e) NotificationError])
         (fun _ => [SetLocation (match k with
                                 | History => "/workflow-history"
                                 | Archived => "/archived-workflows"
                                 end)]).

Definition resubmitArchivedWorkflow := resubmit Archived.
Definition deleteArchivedWorkflow := delete Archived.

(** ** Properties of the actions *)

Definition is_request (e : Effect) : bool :=
  match e with Resubmit _ _ _ | Delete _ _ _ => true | _ => false end.

(** C20: no request reaches the backend unless the user confirmed: every
    resubmit or delete request among the effects of either action implies
    that [confirm] answered true. *)
Theorem actions_need_confirmation (k : Kind) (r : Route) (confirmed : bool)
    (res : Settled Workflow) (dres : Settled unit) (e : Effect) :
  is_request e = true -> e ∈ resubmit k r confirmed res ++ delete k r confirmed dres ->
  confirmed = true.
Proof.
  intros He Hin. destruct confirmed; [done |]. simpl in Hin.
  apply elem_of_cons in Hin as [->|Hin]; [done |].
  apply elem_of_cons in Hin as [->|Hin]; [done | set_solver].
Qed.

(** C21: when the service rejects a resubmit, the page shows the error
    notification and then the [then] callback reads [metadata] of
    [undefined]: the chain ends in an unhandled [TypeError] and the page
    never navigates. *)
Theorem resubmit_failure_unhandled (k : Kind) (r : Route) (e : string) :
  resubmit k r true (Rejected e) =
    [Confirm ("Are you sure you want to re-submit this " ++ what k ++ "?");
     Resubmit k (namespace_ r) (uid_ r);
     Notify ((match k with
              | History => "Failed to resubmit workflow history "
              | Archived => "Failed to resubmit workflow "
              end) ++ e) NotificationError;
     UnhandledRejection "TypeError: cannot read property 'metadata' of undefined"] /\
  forall href, SetLocation href ∉ resubmit k r true (Rejected e).
Proof. split; [done |]. intros href. simpl. set_solver. Qed.

(** C22: when the service rejects a delete, the page shows the error
    notification and then navigates to the list anyway, as after a
    successful delete; the full page load discards the notification. *)
Theorem delete_failure_navigates (k : Kind) (r : Route) (e : string) :
  exists pre, delete k r true (Rejected e) =
    pre ++ [Notify ("Failed to delete " ++ what k ++ " " ++ e) NotificationError;
            SetLocation (match k with History => "/workflow-history" | Archived => "/archived-workflows" end)] /\
  delete k r true (Fulfilled tt) =
    pre ++ [SetLocation (match k with History => "/workflow-history" | Archived => "/archived-workflows" end)].
Proof.
  exists [Confirm ("Are you sure you want to delete this " ++ what k ++ "?" ++
                   String "010"%char "There is no undo."); Delete k (namespace_ r) (uid_ r)].
  split; reflexivity.
Qed.

(** C23: a successful resubmit navigates to the new workflow's page,
    [/workflows/<namespace>/<name>], with no notification. *)
Theorem resubmit_success_navigates (k : Kind) (r : Route) (wf : Workflow) :
  last (resubmit k r true (Fulfilled wf)) =
    Some (SetLocation ("/workflows/" ++ namespace (metadata wf) ++ "/" ++ name (metadata wf))) /\
  forall c t, Notify c t ∉ resubmit k r true (Fulfilled wf).
Proof. split; [done |]. intros c t. simpl. set_solver. Qed.

(** ** The theorems on a concrete page *)

Lemma actions_need_confirmation_witness : true = true.
Proof.
  apply (actions_need_confirmation History DetailsInstances.r0 true (Fulfilled DetailsInstances.wf0)
           (Fulfilled tt) (Resubmit History "argo" "u1")); concrete.
Defined.
