(* ===== verification/ListPages.v ===== *)
(** * The workflow list page and the workflow history list page

    [workflows-list.tsx] keeps its phase filter in the URL: the [phases]
    getter (lines 39-41) reads [getAll('phase')] of [location.search],
    and the filter's [selectionChanged] (lines 55-58) pushes
    [uiUrl('workflows' + query)] with [query] built by joining
    [phase=<p>] with [&], without encoding.  The page renders (lines
    48-204) the filter, the toolbar, the [DataLoader] of [Session.v], and
    for the loaded array either the "No workflows" box or the search box
    and one linked row per workflow, keyed by its name.  The submit
    panel's [onSave] (lines 191-197) is modelled as the sequence of its
    effects, and the search box's handlers (lines 125-157) as the
    [goto] calls they make, which [ListNavigation.v] follows.
    [workflow-history-list.tsx] (lines 16-51) renders the history list,
    keyed by uid.  Rendering is modelled as typed views, as in
    [Details.v]. *)

From S2P Require Import Prelude Model Reconcile UrlSearchParams Details Actions.
From Stdlib Require Import Ascii.

(** ** The phase filter in the URL *)

(** [this.phases], lines 39-41. *)
Definition phases (search : string) : list string := getAll (parse search) "phase".

(** The [query] of [selectionChanged], line 56. *)
Definition phaseQuery (phases : list string) : string :=
  if 0 <? length phases
  then String "?"%char (join "&"%char ((fun phase => "phase=" ++ phase)%string <$> phases))
  else EmptyString.

(** The constant [placeholderWorkflow], lines 19-31: the YAML shown in
    the empty editor ([034] is the double quote). *)
Definition placeholderWorkflow : string :=
  ("apiVersion: argoproj.io/v1alpha1
kind: Workflow
metadata:
  generateName: hello-world-
spec:
  entrypoint: whalesay
  templates:
  - name: whalesay
    container:
      image: docker/whalesay:latest
      command: [cowsay]
      args: [" ++ String "034"%char "hello world" ++ String "034"%char "]
")%string.

(** ** The rendered list *)

(** A filter item [{value, label}]. *)
Record FilterItem := mkFilterItem { item_value : string; item_label : string }.

(** A row of the list: the React key, the link and the workflow. *)
Record Row := mkRow { row_key : string; row_link : string; row_workflow : Workflow }.

Inductive ListBody :=
  | NoWorkflows
  | WorkflowRows (searchValue : string) (clearShown : bool) (searchItems : list string)
      (rows : list Row).

(** A navigation of [ctx.navigation.goto(path, query)]: the query
    changes, a [null] value removing a parameter. *)
Record Goto := mkGoto {
  goto_path : string;
  goto_query : list (string * option string);
  goto_replace : bool                          (* the option [{replace: true}] *)
}.

(** The handlers of the search box in the [DataLoader]'s child, lines
    125-157: the clear icon's [onClick], the input's [onChange] and the
    autocomplete's [onSelect]. *)
Record SearchHandlers := mkSearchHandlers {
  clear_search : Goto;
  change_search : string -> Goto;
  select_item : string -> Goto
}.

Definition searchHandlers : SearchHandlers :=
  mkSearchHandlers
    (mkGoto "." [("search", None)] true)
    (fun value => mkGoto "." [("search", Some value)] true)
    (fun val => mkGoto ("./" ++ val) [] false)%string.

Record ListView := mkListView {
  list_title : string;
  filterItems : list FilterItem;
  selectedValues : list string;
  selectionChanged : list string -> string;   (* the URL pushed *)
  list_breadcrumbs : list Crumb;
  list_actions : list (string * string * Goto);
  loaderInput : list string;                  (* the DataLoader's input *)
  list_body : option ListBody;                (* None while loading *)
  submitPanelShown : bool;
  submitPlaceholder : string;                 (* the YAML editor's placeholder *)
  submitPanelClose : Goto
}.

Section render.
Context (uiUrl : string -> string).
(** [Utils.tryJsonParse] of [shared/utils] (not among the sources),
  through JavaScript truthiness: whether [!!this.wfInput] holds for the
  value of the [new] parameter. *)
Context (tryJsonParse_truthy : option string -> bool).

(** [!!this.wfInput]: the getter (lines 43-46) parses the [new]
  parameter of the query with [Utils.tryJsonParse]. *)
Definition wfInput (search : string) : bool := tryJsonParse_truthy (get (parse search) "new").

(** The [DataLoader]'s child for the loaded array, lines 111-181; the
  search box reads the [search] parameter through the [Query]
  component. *)
Definition listBody (search : string) (workflows : list Workflow) : ListBody :=
if length workflows =? 0 then NoWorkflows
else
  let q := get (parse search) "search" in
  WorkflowRows (js_or q "") (truthy q)
    ((fun wf => namespace (metadata wf) ++ "/" ++ name (metadata wf))%string <$> workflows)
    ((fun workflow =>
        mkRow (name (metadata workflow))
          (uiUrl ("workflows/" ++ namespace (metadata workflow) ++ "/" ++ name (metadata workflow)))
          workflow)%string <$> workflows).

(** [WorkflowsList.render()], lines 48-204, with the array the
  [DataLoader] last received ([None] before the first value). *)
Definition workflowsListView (search : string) (loaded : option (list Workflow)) : ListView :=
mkListView
  "Workflows"
  ((fun phase => mkFilterItem phase phase) <$> NODE_PHASE)
  (phases search)
  (fun phases => uiUrl ("workflows" ++ phaseQuery phases))%string
  [mkCrumb "Workflows" (Some (uiUrl "workflows"))]
  [("Submit New Workflow", "fa fa-plus", mkGoto "." [("new", Some "{}")] false)]%string
  (phases search)
  (listBody search <$> loaded)
  (wfInput search)
  placeholderWorkflow
  (mkGoto "." [("new", None)] false).

(** [WorkflowHistoryList.render()], lines 16-51, with the array the
  [DataLoader] received from [workflowHistory.list()] ([None] while it
  loads): the title and breadcrumb, then whether the "No workflow
  history" box shows, and one row per workflow keyed by its uid (the
  information line is always shown). *)
Definition workflowHistoryListView (loaded : option (list Workflow))
    : string * list Crumb * option (bool * list Row) :=
("Workflow History"%string,
 [mkCrumb "Workflow History" (Some (uiUrl "workflow-history"))],
 (fun workflows =>
   (length workflows =? 0,
    (fun workflow =>
       mkRow (uid (metadata workflow))
         (uiUrl ("workflow-history/" ++ namespace (metadata workflow) ++ "/" ++ uid (metadata workflow)))
         workflow)%string <$> workflows)) <$> loaded).
End render.

(** ** The submit panel *)

(** What the submit panel's [onSave] does, in order; [J] is the parsed
    manifest. *)
Inductive SubmitEffect (J : Type) :=
  | Create (manifest : J) (namespace : string)   (* services.workflows.create *)
  | NavigateTo (path : string)                   (* ctx.navigation.goto *)
  | SaveRejected (reason : string)               (* the returned promise rejects *)
  | SaveThrows (error : string).                 (* JSON.parse throws *)
Arguments Create {J} manifest namespace.
Arguments NavigateTo {J} path.
Arguments SaveRejected {J} reason.
Arguments SaveThrows {J} error.

(** [onSave(rawWf)], lines 191-197, given what [JSON.parse(rawWf)]
    returns ([None] when it throws a [SyntaxError], which leaves the
    callback before any request) and how the service's promise settles.
    The namespace is the literal ['argo'], whatever the manifest says;
    [.then()] without a callback passes the value on, and a rejection
    reaches the editor through the returned promise. *)
Definition onSave {J} (parsed : option J) (result : Settled Workflow) : list (SubmitEffect J) :=
  match parsed with
  | None => [SaveThrows "SyntaxError"]
  | Some manifest =>
      Create manifest "argo" ::
      match result with
      | Fulfilled wf =>
          [NavigateTo ("/workflows/" ++ namespace (metadata wf) ++ "/" ++ name (metadata wf))]
      | Rejected e => [SaveRejected e]
      end
  end%string.

(** ** The phase filter round trip *)

(** The [location.search] of a URL the router pushes, as the [history]
    package's [parsePath] reads it: the part from the first [?] up to
    the first [#], a bare [?] read as empty. *)
Definition location_search (url : string) : string :=
  match split_first "?"%char (fst (split_first "#"%char url)) with
  | (_, Some q) => if q === "" then EmptyString else String "?"%char q
  | (_, None) => EmptyString
  end.

(** The phases the filter can write without the URL changing them: no
    [&], [+], [%] or [#] (every [NODE_PHASE] value qualifies). *)
Definition query_safe (p : string) : bool :=
  negb (has_char "&"%char p || has_char "+"%char p || has_char "%"%char p || has_char "#"%char p).

Lemma query_safe_spec (p : string) :
  query_safe p = true ->
  has_char "&"%char p = false /\ has_char "+"%char p = false /\
  has_char "%"%char p = false /\ has_char "#"%char p = false.
Proof. unfold query_safe. rewrite negb_true_iff, !orb_false_iff. tauto. Qed.

Lemma plus_to_space_id (s : string) : has_char "+"%char s = false -> plus_to_space s = s.
Proof.
  induction s as [|c s IH]; simpl; [done |]. intros [Hc Hs]%orb_false_iff.
  by rewrite Hc, IH.
Qed.

Lemma percent_decode_id (s : string) : has_char "%"%char s = false -> percent_decode s = s.
Proof.
  induction s as [|c s IH]; simpl; [done |]. intros [Hc Hs]%orb_false_iff.
  by rewrite Hc, IH.
Qed.

Lemma parse_phase_pair (p : string) :
  query_safe p = true -> parse_pair ("phase=" ++ p)%string = ("phase"%string, p).
Proof.
  intros (_ & Hplus & Hpct & _)%query_safe_spec.
  unfold parse_pair. simpl. by rewrite plus_to_space_id, percent_decode_id.
Qed.

Lemma getAll_phase_pairs (ps : list string) :
  Forall (fun p => query_safe p = true) ps ->
  getAll (parse_pair <$> filter (fun seq => negb (String.eqb seq EmptyString))
            ((fun phase => "phase=" ++ phase)%string <$> ps)) "phase" = ps.
Proof.
  induction 1 as [|p ps Hp Hps IH]; [done |].
  rewrite fmap_cons, filter_cons_True by done. rewrite fmap_cons, parse_phase_pair by done.
  unfold getAll in *. rewrite filter_cons_True by done. rewrite fmap_cons. f_equal. exact IH.
Qed.

(** Every pair [phase=<p>] of a safe phase avoids a character [x] that
    neither [phase=] nor the phase contains. *)
Lemma phase_pairs_avoid (x : ascii) (ps : list string) :
  has_char x "phase=" = false -> Forall (fun p => has_char x p = false) ps ->
  Forall (fun s => has_char x s = false) ((fun phase => "phase=" ++ phase)%string <$> ps).
Proof.
  intros Hx Hps. apply Forall_fmap. eapply Forall_impl; [exact Hps |].
  intros p Hp. unfold compose. by rewrite has_char_app, Hx, Hp.
Qed.

Lemma phases_phaseQuery (ps : list string) :
  Forall (fun p => query_safe p = true) ps -> phases (phaseQuery ps) = ps.
Proof.
  intros Hps. destruct ps as [|p0 ps0]; [done |].
  unfold phases, parse.
  change (strip_question (phaseQuery (p0 :: ps0)))
    with (join "&"%char ((fun phase => "phase=" ++ phase)%string <$> p0 :: ps0)).
  rewrite split_on_join; [by apply getAll_phase_pairs | done |].
  apply phase_pairs_avoid; [done |]. eapply Forall_impl; [exact Hps |].
  by intros p (? & _)%query_safe_spec.
Qed.

(** The router reads the query [selectionChanged] built back from the
    pushed URL, when the prefix before it has no [?] or [#]. *)
Lemma location_search_phaseQuery (prefix : string) (ps : list string) :
  has_char "?"%char prefix = false -> has_char "#"%char prefix = false ->
  Forall (fun p => query_safe p = true) ps ->
  location_search (prefix ++ phaseQuery ps) = phaseQuery ps.
Proof.
  intros Hq Hh Hps. unfold location_search.
  assert (has_char "#"%char (phaseQuery ps) = false) as Hhq.
  { unfold phaseQuery. destruct (0 <? length ps); [| done]. rewrite has_char_cons.
    apply has_char_join; [done |]. apply phase_pairs_avoid; [done |].
    eapply Forall_impl; [exact Hps |]. by intros p (_ & _ & _ & ?)%query_safe_spec. }
  rewrite (split_first_none "#"%char) by (rewrite has_char_app, Hh, Hhq; done). simpl.
  destruct ps as [|p0 ps0].
  - by rewrite split_first_none by (rewrite has_char_app, Hq; done).
  - change (phaseQuery (p0 :: ps0))
      with (String "?"%char (join "&"%char ((fun phase => "phase=" ++ phase)%string <$> p0 :: ps0))).
    rewrite split_first_app by exact Hq. by destruct ps0.
Qed.

(** C12: choosing phases in the filter reloads the list with exactly
    those phases: [selectionChanged ps] builds the URL the router
    pushes, and the page rendered at that URL reads [ps] back from its
    [location.search], in order and with repetitions, as the filter's
    selected values and as the [DataLoader]'s input (which starts a new
    subscription of [Session.v]).  It holds for phases without [&], [+],
    [%] or [#] and a base URL without [?] or [#]. *)
Theorem selection_reloads_with_phases (base : string) (json : option string -> bool)
    (search : string) (ps : list string) (loaded : option (list Workflow)) :
  has_char "?"%char base = false -> has_char "#"%char base = false ->
  Forall (fun p => query_safe p = true) ps ->
  let view := fun s => workflowsListView (fun p => base ++ p)%string json s loaded in
  let url := selectionChanged (view search) ps in
  selectedValues (view (location_search url)) = ps /\ loaderInput (view (location_search url)) = ps.
Proof.
  intros Hq Hh Hps. simpl. rewrite string_app_assoc, location_search_phaseQuery; [| | | done].
  - by rewrite phases_phaseQuery.
  - by rewrite has_char_app, Hq.
  - by rewrite has_char_app, Hh.
Qed.
(** ** Rows and keys *)

(** The rows [listBody] renders for a non-empty array, projected on
    their keys, links and workflows. *)
Lemma listBody_rows (uiUrl : string -> string) (search : string) (ws : list Workflow) :
  ws <> [] ->
  exists v c items rows, listBody uiUrl search ws = WorkflowRows v c items rows /\
    row_workflow <$> rows = ws /\
    row_link <$> rows = (fun w => uiUrl ("workflows/" ++ namespace (metadata w) ++ "/" ++ wf_name w))%string <$> ws /\
    row_key <$> rows = names ws.
Proof.
  intros Hne. unfold listBody. destruct (length ws =? 0) eqn:Hl.
  { apply Nat.eqb_eq, length_zero_iff_nil in Hl. done. }
  do 4 eexists. split; [reflexivity |].
  rewrite <- !list_fmap_compose. split_and!; [| done | done].
  clear Hne Hl. induction ws as [|w ws IH]; [done |]. simpl. by f_equal.
Qed.

(** C24: the list shows one row per workflow of the array, in its order,
    linked to [workflows/<namespace>/<name>] and keyed by the name alone:
    the React keys are distinct exactly when the names are, so two
    workflows of different namespaces with one name share a key. *)
Theorem list_rows_keyed_by_name (uiUrl : string -> string) (search : string) (ws : list Workflow) :
  ws <> [] ->
  exists v c items rows, listBody uiUrl search ws = WorkflowRows v c items rows /\
    row_workflow <$> rows = ws /\
    row_link <$> rows = (fun w => uiUrl ("workflows/" ++ namespace (metadata w) ++ "/" ++ wf_name w))%string <$> ws /\
    (NoDup (row_key <$> rows) <-> NoDup (names ws)).
Proof.
  intros Hne. destruct (listBody_rows uiUrl search ws Hne) as (v & c & items & rows & Hb & Hw & Hl & Hk).
  exists v, c, items, rows. by rewrite Hk.
Qed.

(** C25: once loaded, the history list shows the "No workflow history"
    box exactly when the array is empty, and one row per workflow of the
    array, in its order, linked to [workflow-history/<namespace>/<uid>]
    and keyed by the uid, so that the keys are as distinct as the uids. *)
Theorem history_rows_keyed_by_uid (uiUrl : string -> string) (ws : list Workflow) :
  exists rows, (workflowHistoryListView uiUrl (Some ws)).2 = Some (bool_decide (ws = []), rows) /\
    row_workflow <$> rows = ws /\
    row_key <$> rows = (fun w => uid (metadata w)) <$> ws /\
    row_link <$> rows =
      (fun w => uiUrl ("workflow-history/" ++ namespace (metadata w) ++ "/" ++ uid (metadata w)))%string <$> ws.
Proof.
  eexists. split; [simpl; by destruct ws |].
  rewrite <- !list_fmap_compose. split_and!; [| done | done].
  induction ws as [|w ws IH]; [done |]. simpl. by f_equal.
Qed.

(** ** What saving a new workflow does *)

Definition is_create {J} (e : SubmitEffect J) : bool :=
  match e with Create _ _ => true | _ => false end.

(** C35: saving in the submit panel sends at most one create request;
    a request is sent only when the editor's text parsed, carries that
    manifest, and goes to the namespace [argo] whatever the manifest
    names; the page navigates exactly when the request succeeds, and a
    failed request or a parse error leaves the page where it is. *)
Theorem onSave_requests {J} (parsed : option J) (result : Settled Workflow) :
  length (filter (fun e => is_create e = true) (onSave parsed result)) <= 1 /\
  (forall j ns, Create j ns ∈ onSave parsed result -> parsed = Some j /\ ns = "argo"%string) /\
  ((exists path, NavigateTo path ∈ onSave parsed result) <->
     is_Some parsed /\ exists wf, result = Fulfilled wf).
Proof.
  destruct parsed as [j|]; [destruct result as [wf|e] |]; unfold onSave; split_and!.
  - rewrite filter_cons_True, filter_cons_False by done. simpl. lia.
  - intros j' ns Hin. apply elem_of_cons in Hin as [Hin|Hin]; [by injection Hin as -> -> | set_solver].
  - split; [intros _; split; eauto | intros _; eexists; apply elem_of_cons; right; apply elem_of_cons; left; reflexivity].
  - rewrite filter_cons_True, filter_cons_False by done. simpl. lia.
  - intros j' ns Hin. apply elem_of_cons in Hin as [Hin|Hin]; [by injection Hin as -> -> | set_solver].
  - split; [intros [? Hin]; set_solver | intros [_ [? ?]]; done].
  - rewrite filter_cons_False by done. simpl. lia.
  - intros j' ns Hin. set_solver.
  - split; [intros [? Hin]; set_solver | intros [[? ?] _]; done].
Qed.

(** ** The theorems on a concrete page *)

Lemma selection_reloads_with_phases_witness :
  let view := fun s => workflowsListView (fun p => "/ui/" ++ p)%string (fun _ => false) s None in
  let url := selectionChanged (view "?phase=Pending") ["Running"; "Failed"]%string in
  url = "/ui/workflows?phase=Running&phase=Failed"%string /\
  selectedValues (view (location_search url)) = ["Running"; "Failed"]%string /\
  loaderInput (view (location_search url)) = ["Running"; "Failed"]%string.
Proof. split; [reflexivity | apply selection_reloads_with_phases; concrete]. Defined.

Lemma list_rows_keyed_by_name_witness :
  exists v c items rows, listBody (fun p => p) "" [Instances.w1; Instances.w2] = WorkflowRows v c items rows /\
    row_workflow <$> rows = [Instances.w1; Instances.w2] /\
    row_link <$> rows = (fun w => "workflows/" ++ namespace (metadata w) ++ "/" ++ wf_name w)%string
                          <$> [Instances.w1; Instances.w2] /\
    (NoDup (row_key <$> rows) <-> NoDup (names [Instances.w1; Instances.w2])).
Proof. apply list_rows_keyed_by_name. concrete. Defined.
