(* ===== verification/LivePage.v ===== *)
(** * The live workflow list: the session and the page composed

    [workflows-list.tsx] hands the observable of [Session.v] to argo-ui's
    [DataLoader] (lines 79-110), which keeps the last value it received
    in its state and renders its child, [listBody] of [ListPages.v], with
    it.  The value is a reference to the session's array, so what the
    page shows is read from the heap at rendering time.  [Loader] pairs
    the session with that reference; [loader_step] runs one input of the
    environment through [Session.step] and updates the reference from
    the step's outputs.  The [DataLoader] itself is not among the
    sources: on a new input it shows its loading renderer until the
    first value, and otherwise keeps the last value it received.  The
    theorems carry the session's guarantees to what the page renders:
    distinct keys when every list answer has unique names, the
    reconciler's fold after
    a subscription's events, and a frozen page after unsubscription. *)

From S2P Require Import Prelude Model Reconcile Session UrlSearchParams Details ListPages.

(** ** The loader's state *)

Record Loader := mkLoader {
  session : Session;
  shown : option loc      (* the reference of the last value, [None] while loading *)
}.

Definition loader_init : Loader := mkLoader init None.

(** The reference of the last value among the outputs of one step. *)
Fixpoint last_next (os : list Output) : option loc :=
  match os with
  | [] => None
  | Next l :: rest => match last_next rest with Some l' => Some l' | None => Some l end
  | _ :: rest => last_next rest
  end.

(** One input: the session steps; a value moves the reference, a new
    subscription clears it, anything else keeps it. *)
Definition loader_step (d : Loader) (i : Input) : Loader :=
  let '(s', os) := step (session d) i in
  mkLoader s' (match last_next os with
               | Some l => Some l
               | None => if is_subscribe i then None else shown d
               end).

Fixpoint loader_run (d : Loader) (inputs : list Input) : Loader :=
  match inputs with
  | [] => d
  | i :: rest => loader_run (loader_step d i) rest
  end.

(** The array the [DataLoader]'s child receives, read through the
    reference when the page renders. *)
Definition loaded (d : Loader) : option (list Workflow) :=
  shown d ≫= fun l => heap (session d) !! l.

(** The page the user sees. *)
Definition livePage (uiUrl : string -> string) (json : option string -> bool) (search : string)
    (d : Loader) : ListView :=
  workflowsListView uiUrl json search (loaded d).

Inductive loader_reachable : Loader -> Prop :=
  | lr_init : loader_reachable loader_init
  | lr_step d i : loader_reachable d -> snapshot_ok i -> loader_reachable (loader_step d i).

(** ** Lemmas *)

Lemma loader_step_session (d : Loader) (i : Input) :
  session (loader_step d i) = (step (session d) i).1.
Proof. unfold loader_step. by destruct (step (session d) i). Qed.

Lemma loader_reachable_session (d : Loader) : loader_reachable d -> reachable (session d).
Proof.
  induction 1 as [|d i Hd IH Hok]; [constructor |].
  rewrite loader_step_session. by constructor.
Qed.

Lemma loaded_names_unique (d : Loader) (ws : list Workflow) :
  loader_reachable d -> loaded d = Some ws -> NoDup (names ws).
Proof.
  intros Hd Hl. unfold loaded in Hl. destruct (shown d) as [l|]; [| done]. simpl in Hl.
  eapply wf_arrays; [| exact Hl]. by apply reachable_wf, loader_reachable_session.
Qed.

(** A streaming loader that shows the streamed array, after one watch
    event of its subscription: the same, with the array reconciled. *)
Lemma loader_watch_step (d : Loader) (p : list string) (arr : loc) (ws : list Workflow)
    (c : WatchEvent) :
  sphase (session d) = Streaming p arr -> shown d = Some arr -> heap (session d) !! arr = Some ws ->
  let d' := loader_step d (WatchNext (sid (session d)) c) in
  sphase (session d') = Streaming p arr /\ sid (session d') = sid (session d) /\
  shown d' = Some arr /\ heap (session d') !! arr = Some (workflows (onWorkflowChange ws c)).
Proof.
  intros Hp Hs Hh. unfold loader_step. simpl. rewrite Hp, decide_True, Hh by done. simpl.
  rewrite lookup_insert_eq. split_and!; [done | done | | done].
  destruct (updated _); simpl; [done | exact Hs].
Qed.

Lemma loader_watch_run (d : Loader) (p : list string) (arr : loc) (ws : list Workflow)
    (cs : list WatchEvent) :
  sphase (session d) = Streaming p arr -> shown d = Some arr -> heap (session d) !! arr = Some ws ->
  loaded (loader_run d (WatchNext (sid (session d)) <$> cs)) =
    Some (foldl (fun ws c => workflows (onWorkflowChange ws c)) ws cs).
Proof.
  revert d ws. induction cs as [|c cs IH]; intros d ws Hp Hs Hh.
  - simpl. unfold loaded. by rewrite Hs.
  - destruct (loader_watch_step d p arr ws c Hp Hs Hh) as (Hp' & Hsid & Hs' & Hh').
    simpl. pose proof (IH _ _ Hp' Hs' Hh') as IH'. by rewrite Hsid in IH'.
Qed.

(** A new subscription answered with [ws]: the loader streams the
    fresh array [next_loc] holding [ws], and shows it. *)
Lemma loader_subscribe_list (d : Loader) (p : list string) (ws : list Workflow) :
  let d2 := loader_step (loader_step d (Subscribe p)) (ListResolved (S (sid (session d))) ws) in
  sphase (session d2) = Streaming p (next_loc (session d)) /\
  shown d2 = Some (next_loc (session d)) /\
  heap (session d2) !! next_loc (session d) = Some ws.
Proof.
  unfold loader_step at 2. cbn. unfold loader_step. cbn.
  rewrite decide_True by done. cbn. by rewrite lookup_insert_eq.
Qed.

Lemma loader_run_reachable (d : Loader) (inputs : list Input) :
  loader_reachable d -> Forall snapshot_ok inputs -> loader_reachable (loader_run d inputs).
Proof.
  intros Hd Hok. revert d Hd. induction Hok as [|i inputs Hi _ IH]; intros d Hd; [done |].
  simpl. apply IH. by constructor.
Qed.

(** A loader whose subscription is over keeps its session's heap and its
    reference for every input but a new subscription. *)
Lemma loader_quiet_step (d : Loader) (i : Input) :
  quiet (sphase (session d)) = true -> is_subscribe i = false ->
  loaded (loader_step d i) = loaded d /\ quiet (sphase (session (loader_step d i))) = true.
Proof.
  intros Hq Hi. unfold loaded, loader_step, step, release, set_phase.
  destruct i; [done | ..]; destruct (sphase (session d)) eqn:Hp;
    simpl in Hq |- *; try discriminate; rewrite ?Hp; simpl; rewrite ?Hi; done.
Qed.

Lemma loader_quiet_run (d : Loader) (inputs : list Input) :
  quiet (sphase (session d)) = true -> no_subscribe inputs ->
  loaded (loader_run d inputs) = loaded d.
Proof.
  intros Hq Hin. revert d Hq. induction Hin as [|i inputs Hi _ IH]; intros d Hq; [done |].
  destruct (loader_quiet_step d i Hq Hi) as [Hl Hq']. simpl. by rewrite IH, Hl.
Qed.

(** ** Theorems *)

(** C27: the rendered rows have pairwise distinct React keys after any
    run of the page from its initial state in which every list answer of
    the backend has unique names -- the name uniqueness the session
    keeps in every array reaches the rows through the reference the
    [DataLoader] holds.  The assumption holds for a list of one
    namespace; the code lists across all namespaces ([list(phases, '')]),
    where two workflows [ns1/a] and [ns2/a] are rendered with the same
    key [a] (see [list_rows_keyed_by_name]). *)
Theorem live_rows_unique_keys (uiUrl : string -> string) (json : option string -> bool)
    (search : string) (inputs : list Input) (v : string) (clear : bool) (items : list string)
    (rows : list Row) :
  Forall snapshot_ok inputs ->
  list_body (livePage uiUrl json search (loader_run loader_init inputs)) =
    Some (WorkflowRows v clear items rows) ->
  NoDup (row_key <$> rows).
Proof.
  intros Hok Hb. pose proof (loader_run_reachable loader_init inputs lr_init Hok) as Hd.
  simpl in Hb. destruct (loaded _) as [ws|] eqn:Hl; [| done]. simpl in Hb.
  injection Hb as Hb. destruct ws as [|w ws]; [done |].
  destruct (listBody_rows uiUrl search (w :: ws)) as (v' & c' & items' & rows' & Hb' & _ & _ & Hk);
    [done |].
  rewrite Hb in Hb'. injection Hb' as _ _ _ <-. rewrite Hk. by eapply loaded_names_unique.
Qed.

(** C28: the page makes progress and shows what the reconciler
    computes: from any state, once a new subscription's list request
    answers with [ws], and after any watch events [cs] of that
    subscription, the array the page renders is [ws] with the callback
    applied to each event in order. *)
Theorem live_page_shows_fold (d : Loader) (p : list string) (ws : list Workflow)
    (cs : list WatchEvent) :
  let d1 := loader_step d (Subscribe p) in
  let d2 := loader_step d1 (ListResolved (sid (session d1)) ws) in
  loaded (loader_run d2 (WatchNext (sid (session d2)) <$> cs)) =
    Some (foldl (fun ws c => workflows (onWorkflowChange ws c)) ws cs).
Proof.
  simpl. destruct (loader_subscribe_list d p ws) as (Hp & Hs & Hh).
  exact (loader_watch_run _ p _ ws cs Hp Hs Hh).
Qed.

(** C36: once the [DataLoader] unsubscribes, the page is frozen: it
    keeps rendering the array it showed at that moment, and no later
    answer, watch event, error or completion of the old subscription
    changes what it renders, until a new subscription. *)
Theorem live_page_frozen_after_unsubscribe (d : Loader) (inputs : list Input) :
  no_subscribe inputs ->
  loaded (loader_run (loader_step d Unsubscribe) inputs) = loaded d.
Proof.
  intros Hin. assert (loaded (loader_step d Unsubscribe) = loaded d) as Hl.
  { unfold loaded, loader_step, step, release, set_phase. by destruct (sphase (session d)). }
  rewrite loader_quiet_run; [done | | done].
  rewrite loader_step_session. unfold step. by destruct (sphase (session d)).
Qed.

(** ** The theorems on a concrete run *)

Module LiveInstances.
Import Reconcile.Instances.
Definition inputs : list Input := [Subscribe ["Running"]%string; ListResolved 1 [w1; w2]].
Definition d2 : Loader := loader_run loader_init inputs.
End LiveInstances.

Lemma live_rows_unique_keys_witness :
  let rows := [mkRow "1" "workflows/argo/1" Reconcile.Instances.w1;
               mkRow "2" "workflows/argo/2" Reconcile.Instances.w2]%string in
  list_body (livePage (fun p => p) (fun _ => false) ""
               (loader_run loader_init LiveInstances.inputs)) =
    Some (WorkflowRows "" false ["argo/1"; "argo/2"]%string rows) /\ NoDup (row_key <$> rows).
Proof.
  split; [vm_compute; reflexivity |].
  apply (live_rows_unique_keys (fun p => p) (fun _ => false) "" LiveInstances.inputs "" false
           ["argo/1"; "argo/2"]%string); [| vm_compute; reflexivity].
  repeat constructor; concrete.
Defined.

Lemma live_page_frozen_after_unsubscribe_witness :
  loaded (loader_run (loader_step LiveInstances.d2 Unsubscribe)
            [WatchNext 1 (mkWatchEvent DELETED Reconcile.Instances.w2'); ListResolved 1 []]) =
    loaded LiveInstances.d2.
Proof. apply live_page_frozen_after_unsubscribe. concrete. Defined.

