(* ===== verification/ListNavigation.v ===== *)
(** * Navigation on the workflow list page

    The list page changes its own URL through argo-ui's
    [ctx.navigation.goto(path, query, options)]: the search box's
    handlers (lines 125-157 of [workflows-list.tsx]), the "Submit New
    Workflow" action (line 73) and the submit panel's [onClose] (line
    184).  argo-ui is not among the sources; [navigate] models [goto] on
    the path ['.'] as its contract is documented: the current query is
    edited key by key -- [set] for a value, [delete] for [null] -- and
    becomes the new [location.search].  Any other path leaves the page,
    which [navigate] answers with [None].  The theorems follow a
    handler to the page's next rendering. *)

From S2P Require Import Prelude Model Reconcile UrlSearchParams Details ListPages.

(** ** [ctx.navigation.goto] *)

(** The [location.search] after [goto(g)] from a page whose search is
    [search], or [None] when [g] leaves the page. *)
Definition navigate (search : string) (g : Goto) : option string :=
  if goto_path g === "." then Some (search_of (foldl apply_param (parse search) (goto_query g)))
  else None.

(** ** Lemmas *)

Lemma navigate_here (search : string) (query : list (string * option string)) (replace : bool) :
  navigate search (mkGoto "." query replace) =
    Some (search_of (foldl apply_param (parse search) query)).
Proof. done. Qed.

Lemma getAll_apply_param_ne (ps : params) (n name : string) (v : option string) :
  n <> name -> getAll (apply_param ps (n, v)) name = getAll ps name.
Proof. destruct v; simpl; [apply getAll_set_ne | apply getAll_delete_ne]. Qed.

(** Editing one parameter other than [phase] keeps the phase filter. *)
Lemma phases_navigate_one (search n : string) (v : option string) (replace : bool) :
  n <> "phase"%string ->
  navigate search (mkGoto "." [(n, v)] replace) = Some (search_of (apply_param (parse search) (n, v))) /\
  phases (search_of (apply_param (parse search) (n, v))) = phases search.
Proof.
  intros Hn. split; [done |]. unfold phases. rewrite parse_search_of.
  by apply getAll_apply_param_ne.
Qed.

(** The search box's value and clear icon, read from the query. *)
Lemma listBody_search (uiUrl : string -> string) (search : string) (ws : list Workflow) :
  ws <> [] ->
  exists items rows, forall search',
    listBody uiUrl search' ws =
      WorkflowRows (js_or (get (parse search') "search") "") (truthy (get (parse search') "search"))
        items rows.
Proof. intros Hne. destruct ws as [|w ws]; [done |]. by do 2 eexists. Qed.

(** ** Theorems *)

(** C32: typing [v] in the search box ([onChange]) rewrites the URL so
    that the next rendering shows [v] in the box and the clear icon
    exactly when [v] is not empty, and clicking the clear icon empties
    the box and hides the icon; neither changes the phase filter (so
    the [DataLoader] keeps its subscription), nor the rows, which the
    search text does not filter. *)
Theorem search_box_roundtrip (uiUrl : string -> string) (search v : string) (ws : list Workflow) :
  ws <> [] ->
  exists s1 s2 items rows,
    navigate search (change_search searchHandlers v) = Some s1 /\
    navigate search (clear_search searchHandlers) = Some s2 /\
    listBody uiUrl s1 ws = WorkflowRows v (negb (v === "")) items rows /\
    listBody uiUrl s2 ws = WorkflowRows "" false items rows /\
    listBody uiUrl search ws =
      WorkflowRows (js_or (get (parse search) "search") "") (truthy (get (parse search) "search"))
        items rows /\
    phases s1 = phases search /\ phases s2 = phases search.
Proof.
  intros Hne. destruct (listBody_search uiUrl search ws Hne) as (items & rows & Hb).
  destruct (phases_navigate_one search "search" (Some v) true) as [H1 P1]; [done |].
  destruct (phases_navigate_one search "search" None true) as [H2 P2]; [done |].
  eexists _, _, items, rows. split_and!; [exact H1 | exact H2 | | | apply Hb | exact P1 | exact P2];
    rewrite Hb, parse_search_of, get_apply_param_eq; simpl; [| done].
  by case_streq v ""%string; [subst |].
Qed.

Section submit_panel.
Context (uiUrl : string -> string) (tryJsonParse_truthy : option string -> bool).
(** [Utils.tryJsonParse('{}')] is the empty object, which is truthy, and
  [Utils.tryJsonParse(null)] is falsy. *)
Hypothesis json_new : tryJsonParse_truthy (Some "{}"%string) = true.
Hypothesis json_null : tryJsonParse_truthy None = false.

(** C33: the "Submit New Workflow" action opens the submit panel and the
    panel's [onClose] closes it again, both by editing the [new]
    parameter of the URL, and neither touches the phase filter, so the
    list keeps its subscription underneath the panel. *)
Theorem submit_panel_open_close (search : string) (loaded : option (list Workflow))
    (t icon : string) (g : Goto) :
  list_actions (workflowsListView uiUrl tryJsonParse_truthy search loaded) = [(t, icon, g)] ->
  exists s1 s2,
    navigate search g = Some s1 /\
    submitPanelShown (workflowsListView uiUrl tryJsonParse_truthy s1 loaded) = true /\
    navigate s1 (submitPanelClose (workflowsListView uiUrl tryJsonParse_truthy s1 loaded)) = Some s2 /\
    submitPanelShown (workflowsListView uiUrl tryJsonParse_truthy s2 loaded) = false /\
    phases s1 = phases search /\ phases s2 = phases search.
Proof.
  intros Ha. simpl in Ha. injection Ha as _ _ <-.
  destruct (phases_navigate_one search "new" (Some "{}"%string) false) as [H1 P1]; [done |].
  destruct (phases_navigate_one (search_of (apply_param (parse search) ("new"%string, Some "{}"%string)))
              "new" None false) as [H2 P2]; [done |].
  eexists _, _. split_and!; [exact H1 | | exact H2 | | exact P1 | rewrite P2; exact P1];
    cbn [submitPanelShown workflowsListView]; unfold wfInput;
    rewrite parse_search_of, get_apply_param_eq; assumption.
Qed.
End submit_panel.

(** ** The theorems on a concrete page *)

Lemma search_box_roundtrip_witness :
  exists s1 s2 items rows,
    navigate "?phase=Running" (change_search searchHandlers "hello") = Some s1 /\
    navigate "?phase=Running" (clear_search searchHandlers) = Some s2 /\
    listBody (fun p => p) s1 [Reconcile.Instances.w1] = WorkflowRows "hello" (negb ("hello" === "")) items rows /\
    listBody (fun p => p) s2 [Reconcile.Instances.w1] = WorkflowRows "" false items rows /\
    listBody (fun p => p) "?phase=Running" [Reconcile.Instances.w1] =
      WorkflowRows (js_or (get (parse "?phase=Running") "search") "")
        (truthy (get (parse "?phase=Running") "search")) items rows /\
    phases s1 = phases "?phase=Running" /\ phases s2 = phases "?phase=Running".
Proof. apply search_box_roundtrip. concrete. Defined.

Definition json_truthy (o : option string) : bool := bool_decide (o = Some "{}"%string).

Lemma submit_panel_open_close_witness :
  exists s1 s2,
    navigate "?phase=Failed" (mkGoto "." [("new", Some "{}")] false)%string = Some s1 /\
    submitPanelShown (workflowsListView (fun p => p) json_truthy s1 None) = true /\
    navigate s1 (submitPanelClose (workflowsListView (fun p => p) json_truthy s1 None)) = Some s2 /\
    submitPanelShown (workflowsListView (fun p => p) json_truthy s2 None) = false /\
    phases s1 = phases "?phase=Failed" /\ phases s2 = phases "?phase=Failed".
Proof.
  refine (submit_panel_open_close (fun p => p) json_truthy _ _ _ _ "Submit New Workflow" "fa fa-plus" _ _);
    concrete.
Defined.
