(* ===== verification/ArchivedPage.v ===== *)
(** * The archived workflow page's query state, over [BasePage]

    [ArchivedWorkflowDetails] extends [BasePage] (of
    [shared/components/base-page], not among the sources) and keeps its
    state in the URL through [this.queryParam(name)] and
    [this.setQueryParams(params)] (lines 23-57 of
    [archived-workflow-details.tsx]), where the history page has its own
    [getParam] and [setParams].  [BasePage] is stated here as an
    interface: the two methods, the router's [push], and the law the
    page relies on -- after [setQueryParams] a parameter reads back the
    value it was given, and every other parameter is unchanged.  The
    archived page's getters and setters are written against that
    interface, and their theorem is proved from the law alone; the
    history page's [getParam], [setParams] and [push] of [Details.v]
    form an instance, which discharges the law and shows that
    [detailsView Archived] may read the archived page's state with the
    history page's getters. *)

From S2P Require Import Prelude Model UrlSearchParams Details.
From Stdlib Require Import Ascii.

(** ** The interface *)

Class BasePage := {
  queryParam : Route -> string -> option string;
  setQueryParams : Route -> list (string * option string) -> string;
  navigateTo : Route -> string -> Route;               (* [history.push] *)
  queryParam_setQueryParams r newParams name :
    has_char "?"%char (match_url r) = false -> NoDup newParams.*1 ->
    queryParam (navigateTo r (setQueryParams r newParams)) name =
      match assoc name newParams with Some v => v | None => queryParam r name end
}.

(** ** The archived page's getters and setters, lines 23-57 *)

Section archived.
Context `{BasePage}.

Definition archived_namespace (r : Route) : string := match_namespace r.
Definition archived_uid (r : Route) : string := match_uid r.
Definition archived_tab (r : Route) : string := js_or (queryParam r "tab") "workflow".
Definition archived_setTab (r : Route) (t : string) : string := setQueryParams r [("tab", Some t)].
Definition archived_nodeId (r : Route) : option string := queryParam r "nodeId".
Definition archived_setNodeId (r : Route) (n : option string) : string :=
  setQueryParams r [("nodeId", n)].
Definition archived_container (r : Route) : string := js_or (queryParam r "container") "main".
Definition archived_sidePanel (r : Route) : option string := queryParam r "sidePanel".
Definition archived_setSidePanel (r : Route) (p : option string) : string :=
  setQueryParams r [("sidePanel", p)].

(** [node(wf)], lines 165-167. *)
Definition archived_node (r : Route) (wf : Workflow) : option NodeStatus :=
  if truthy (archived_nodeId r) then nodes (status wf) !! default "" (archived_nodeId r) else None.

(** ** Against the interface *)

(** C34: on the archived page, for any [BasePage] satisfying its law,
    each setter changes exactly its own parameter: after [setTab],
    [setNodeId] or [setSidePanel] the getter reads the new value (with
    the defaults of the page), and the other parameters read as
    before. *)
Theorem archived_setters_isolated (r : Route) (t : string) (n p : option string) :
  has_char "?"%char (match_url r) = false ->
  let r1 := navigateTo r (archived_setTab r t) in
  let r2 := navigateTo r (archived_setNodeId r n) in
  let r3 := navigateTo r (archived_setSidePanel r p) in
  archived_tab r1 = js_or (Some t) "workflow" /\
  archived_nodeId r1 = archived_nodeId r /\ archived_sidePanel r1 = archived_sidePanel r /\
  archived_nodeId r2 = n /\ archived_tab r2 = archived_tab r /\
  archived_container r2 = archived_container r /\
  archived_sidePanel r3 = p /\ archived_tab r3 = archived_tab r /\
  archived_nodeId r3 = archived_nodeId r.
Proof.
  intros Hurl.
  unfold archived_tab, archived_nodeId, archived_sidePanel, archived_container,
    archived_setTab, archived_setNodeId, archived_setSidePanel.
  rewrite !queryParam_setQueryParams by (done || concrete). done.
Qed.
End archived.

(** ** The history page's methods as an instance *)

#[export] Instance url_base_page : BasePage := {|
  queryParam := getParam;
  setQueryParams := setParams;
  navigateTo := push;
  queryParam_setQueryParams := getParam_push
|}.

(** With that instance the archived page's getters are the history
    page's, which [detailsView Archived] uses. *)
Lemma archived_getters_as_history (r : Route) (wf : Workflow) :
  archived_tab r = tab r /\ archived_nodeId r = nodeId r /\ archived_container r = container r /\
  archived_sidePanel r = sidePanel r /\ archived_node r wf = node r wf /\
  archived_namespace r = namespace_ r /\ archived_uid r = uid_ r.
Proof. done. Qed.

(** ** The theorem on a concrete page *)

Definition r_archived : Route :=
  mkRoute "argo" "u9" "/archived-workflows/argo/u9" "?tab=timeline&nodeId=n1".

Lemma archived_setters_isolated_witness :
  let r1 := navigateTo r_archived (archived_setTab r_archived "summary") in
  let r2 := navigateTo r_archived (archived_setNodeId r_archived None) in
  let r3 := navigateTo r_archived (archived_setSidePanel r_archived (Some "logs"%string)) in
  archived_tab r1 = js_or (Some "summary"%string) "workflow" /\
  archived_nodeId r1 = archived_nodeId r_archived /\
  archived_sidePanel r1 = archived_sidePanel r_archived /\
  archived_nodeId r2 = None /\ archived_tab r2 = archived_tab r_archived /\
  archived_container r2 = archived_container r_archived /\
  archived_sidePanel r3 = Some "logs"%string /\ archived_tab r3 = archived_tab r_archived /\
  archived_nodeId r3 = archived_nodeId r_archived.
Proof. apply archived_setters_isolated. concrete. Defined.
